(** * yt2srt: the transcription-to-subtitle pipeline of [yt2srt.py]

  A shallow embedding of [download_youtube_audio], [generate_srt],
  [write_srt] (with its local [sec_to_timestamp]) and
  [process_youtube_to_srt], followed by the properties the specification
  states about them.

  Modelling choices, in the order of the file:
  - a Python [str] is a [string] whose characters are code points below
    256; [str.strip], [str.lower], [str.split] and the [0N] integer
    format are written out on that range;
  - [os.path] is [posixpath]: [join], [normpath], [abspath], [splitext];
  - a Python [float] is a finite binary64 value, kept as the integer
    number of units of 2^-1074 it is made of; every arithmetic operation
    is the exact operation followed by rounding to nearest, ties to even,
    on 53 significant bits;
  - the process state is the current directory, a finite map from
    absolute paths to directory entries, and the list of calls made to
    the two external collaborators (yt-dlp and mlx_whisper), which are
    parameters of the development;
  - a raised exception is [None]; [print] is not modelled. *)

From Stdlib Require Import ZArith Lia String Ascii List DecimalString DecimalN DecimalPos.
From stdpp Require Import gmap strings list fin_maps.

Open Scope string_scope.
Open Scope Z_scope.

(** ** Python strings *)

Module PyStr.

Definition nl : string := String "010" EmptyString.

(** [str.isspace] on one code point below 256: TAB..CR, FS..US, SPACE,
    NEL and NBSP. *)
Definition is_space (c : ascii) : bool :=
  let n := N_of_ascii c in
  ((9 <=? n) && (n <=? 13) || (28 <=? n) && (n <=? 32)
   || (n =? 133) || (n =? 160))%N.

Fixpoint lstrip (s : string) : string :=
  match s with
  | String c s' => if is_space c then lstrip s' else s
  | EmptyString => EmptyString
  end.

Fixpoint rstrip (s : string) : string :=
  match s with
  | String c s' =>
      match rstrip s' with
      | EmptyString => if is_space c then EmptyString else String c EmptyString
      | r => String c r
      end
  | EmptyString => EmptyString
  end.

(** [s.strip()] *)
Definition strip (s : string) : string := rstrip (lstrip s).

Definition lower_char (c : ascii) : ascii :=
  let n := N_of_ascii c in
  if ((65 <=? n) && (n <=? 90)
      || (192 <=? n) && (n <=? 222) && negb (n =? 215))%N
  then ascii_of_N (n + 32) else c.

(** [s.lower()] *)
Fixpoint lower (s : string) : string :=
  match s with
  | String c s' => String (lower_char c) (lower s')
  | EmptyString => EmptyString
  end.

(** [s.split(sep)] for a non-empty [sep]: the text is scanned from the
    left, [skip] counts the characters of a matched separator still to
    be dropped and [cur] is the piece being collected. *)
Fixpoint split_go (sep : string) (skip : nat) (cur s : string) : list string :=
  match s with
  | EmptyString => [cur]
  | String c s' =>
      match skip with
      | S k => split_go sep k cur s'
      | O =>
          if String.prefix sep s
          then cur :: split_go sep (String.length sep - 1) EmptyString s'
          else split_go sep 0 (cur +:+ String c EmptyString) s'
      end
  end.

Definition split (sep s : string) : list string := split_go sep 0 EmptyString s.

(** [sep.join(l)] *)
Fixpoint join (sep : string) (l : list string) : string :=
  match l with
  | [] => EmptyString
  | [x] => x
  | x :: l' => x +:+ sep +:+ join sep l'
  end.

(** [l[-1]] of a list that [split] returned (never empty). *)
Definition last_piece (l : list string) : string := List.last l EmptyString.

(** [s[:n]] *)
Definition take (n : nat) (s : string) : string := String.substring 0 n s.

(** [s[n:]] *)
Fixpoint drop (n : nat) (s : string) : string :=
  match n, s with
  | S k, String _ s' => drop k s'
  | _, _ => s
  end.

Definition starts_with (p s : string) : bool := String.prefix p s.

Fixpoint ends_with_char (c : ascii) (s : string) : bool :=
  match s with
  | EmptyString => false
  | String d EmptyString => Ascii.eqb c d
  | String _ s' => ends_with_char c s'
  end.

(** [s.rfind(c)] for a single character: the index of its last
    occurrence, or -1. *)
Fixpoint rfind_from (c : ascii) (i : Z) (s : string) : Z :=
  match s with
  | EmptyString => -1
  | String d s' =>
      let r := rfind_from c (i + 1) s' in
      if 0 <=? r then r else if Ascii.eqb c d then i else -1
  end.

Definition rfind (c : ascii) (s : string) : Z := rfind_from c 0 s.

(** [str(z)] of an integer. *)
Definition str (z : Z) : string := NilZero.string_of_int (Z.to_int z).

Fixpoint zeros (n : nat) : string :=
  match n with O => EmptyString | S k => String "0" (zeros k) end.

(** [format(z, "0N")], the [{z:02}], [{z:03}] and [{z:02d}] fields of the
    f-strings: the sign first, then zeros up to [width] characters in
    all, then the digits. *)
Definition format_0 (width : nat) (z : Z) : string :=
  let sign := if z <? 0 then "-" else "" in
  let digits := str (Z.abs z) in
  sign +:+ zeros (width - String.length sign - String.length digits) +:+ digits.

(** The order of [str] comparison: by code points, a proper prefix
    first. *)
Definition str_le (s t : string) : Prop := String.leb s t = true.

End PyStr.

(** ** posixpath *)

Module PosixPath.
Import PyStr.

(** [os.path.join(a, b)] *)
Definition join (a b : string) : string :=
  if starts_with "/" b then b
  else if (String.eqb a "" || ends_with_char "/" a)%bool then a +:+ b
  else a +:+ "/" +:+ b.

(** The loop of [normpath] over the components; [new_comps] is kept with
    its last element first. *)
Fixpoint norm_comps (initial_slashes : nat) (new_comps comps : list string)
  : list string :=
  match comps with
  | [] => new_comps
  | comp :: rest =>
      if (String.eqb comp "" || String.eqb comp ".")%bool
      then norm_comps initial_slashes new_comps rest
      else if (negb (String.eqb comp "..")
               || (Nat.eqb initial_slashes 0 && bool_decide (new_comps = []))
               || match new_comps with
                  | top :: _ => String.eqb top ".."
                  | [] => false
                  end)%bool
      then norm_comps initial_slashes (comp :: new_comps) rest
      else norm_comps initial_slashes (List.tl new_comps) rest
  end.

Definition initial_slashes_of (path : string) : nat :=
  if starts_with "/" path then
    if (starts_with "//" path && negb (starts_with "///" path))%bool
    then 2%nat else 1%nat
  else 0%nat.

(** [os.path.normpath(path)] *)
Definition normpath (path : string) : string :=
  if String.eqb path "" then "."
  else
    let initial_slashes := initial_slashes_of path in
    let comps := List.rev (norm_comps initial_slashes [] (split "/" path)) in
    let p := PyStr.join "/" comps in
    let p := match initial_slashes with
             | O => p
             | 1%nat => "/" +:+ p
             | _ => "//" +:+ p
             end in
    if String.eqb p "" then "." else p.

(** [os.path.abspath(path)] in a process whose current directory is
    [cwd]. *)
Definition abspath (cwd path : string) : string :=
  normpath (if starts_with "/" path then path else join cwd path).

(** The scan of [genericpath._splitext] for a character other than the
    dot among [n] characters of [s]. *)
Fixpoint has_non_dot (n : nat) (s : string) : bool :=
  match n, s with
  | S k, String c s' => if Ascii.eqb c "." then has_non_dot k s' else true
  | _, _ => false
  end.

(** [os.path.splitext(p)] *)
Definition splitext (p : string) : string * string :=
  let sepIndex := rfind "/" p in
  let dotIndex := rfind "." p in
  if sepIndex <? dotIndex then
    let filenameIndex := sepIndex + 1 in
    if has_non_dot (Z.to_nat (dotIndex - filenameIndex))
                   (drop (Z.to_nat filenameIndex) p)
    then (take (Z.to_nat dotIndex) p, drop (Z.to_nat dotIndex) p)
    else (p, "")
  else (p, "").

Fixpoint rstrip_char (c : ascii) (s : string) : string :=
  match s with
  | String d s' =>
      match rstrip_char c s' with
      | EmptyString => if Ascii.eqb c d then EmptyString else String d EmptyString
      | r => String d r
      end
  | EmptyString => EmptyString
  end.

Fixpoint all_char (c : ascii) (s : string) : bool :=
  match s with
  | String d s' => (Ascii.eqb c d && all_char c s')%bool
  | EmptyString => true
  end.

(** [os.path.dirname(p)] *)
Definition dirname (p : string) : string :=
  let i := rfind "/" p + 1 in
  let head := take (Z.to_nat i) p in
  if (negb (String.eqb head "") && negb (all_char "/" head))%bool
  then rstrip_char "/" head
  else head.

End PosixPath.

(** ** Python floats *)

Module PyFloat.

(** One unit in the last place of the smallest binary64 exponent: a
    finite float is [z / U] for an integer [z]. *)
Definition U : Z := 2 ^ 1074.

(** The spacing of the binary64 values around [q] units. *)
Definition ulp_of (q : Z) : Z := 2 ^ Z.max 0 (Z.log2 q - 52).

(** [z] has at most 53 significant bits. *)
Definition fits53 (z : Z) : Prop := Z.abs z mod ulp_of (Z.abs z) = 0.

(** [z] units is a finite binary64 value. *)
Definition binary64 (z : Z) : Prop := fits53 z /\ Z.abs z < 2 ^ 2098.

Definition binary64b (z : Z) : bool :=
  (Z.abs z mod ulp_of (Z.abs z) =? 0) && (Z.abs z <? 2 ^ 2098).

(** The integer nearest to [n / d], the even one on a tie. *)
Definition round_half_even (n d : Z) : Z :=
  let q := n / d in
  let r := n mod d in
  if 2 * r <? d then q
  else if d <? 2 * r then q + 1
  else if Z.even q then q else q + 1.

(** The binary64 value nearest to [n / d] units, for [0 <= n], [0 < d]. *)
Definition round_abs (n d : Z) : Z :=
  let g := ulp_of (n / d) in
  g * round_half_even n (d * g).

(** The same for a numerator of any sign. *)
Definition rnd (n d : Z) : Z := Z.sgn n * round_abs (Z.abs n) d.

(** [float(k)] of a Python [int], as in a mixed [float]/[int]
    operation. *)
Definition float_of_int (k : Z) : Z := rnd (k * U) 1.

Definition float_add (a b : Z) : Z := rnd (a + b) 1.
Definition float_sub (a b : Z) : Z := rnd (a - b) 1.
Definition float_mul (a b : Z) : Z := rnd (a * b) U.
(** [a / b] for [0 < b]. *)
Definition float_div (a b : Z) : Z := rnd (a * U) b.

(** [int(a)]: truncation towards zero. *)
Definition int_of_float (a : Z) : Z := Z.quot a U.

(** C's [floor] and [fmod]; both are exact. *)
Definition floor (a : Z) : Z := (a / U) * U.
Definition fmod (vx wx : Z) : Z := Z.rem vx wx.

(** [_float_div_mod] of floatobject.c, which [//] and [%] share. A zero
    result has no sign here. *)
Definition float_divmod (vx wx : Z) : Z * Z :=
  let mod_ := fmod vx wx in
  let div := float_div (float_sub vx mod_) wx in
  let '(mod_, div) :=
    if negb (mod_ =? 0) then
      if negb (Bool.eqb (wx <? 0) (mod_ <? 0))
      then (float_add mod_ wx, float_sub div (float_of_int 1))
      else (mod_, div)
    else (0, div) in
  let floordiv :=
    if negb (div =? 0) then
      let fl := floor div in
      if U <? 2 * float_sub div fl
      then float_add fl (float_of_int 1)
      else fl
    else 0 in
  (floordiv, mod_).

Definition float_floordiv (vx wx : Z) : Z := fst (float_divmod vx wx).
Definition float_mod (vx wx : Z) : Z := snd (float_divmod vx wx).

(** The float written [n / d] in decimal, e.g. [1.5] is [decimal 15 10]. *)
Definition decimal (n d : Z) : Z := rnd (n * U) d.

End PyFloat.

(** ** write_srt *)

Import PyStr PyFloat.

(** [sec_to_timestamp], the local function of [write_srt]. *)
Definition sec_to_timestamp (sec : Z) : string :=
let hours := int_of_float (float_floordiv sec (float_of_int 3600)) in
let minutes :=
  int_of_float (float_floordiv (float_mod sec (float_of_int 3600)) (float_of_int 60)) in
let seconds := int_of_float (float_mod sec (float_of_int 60)) in
let milliseconds :=
  int_of_float (float_mul (float_sub sec (float_of_int (int_of_float sec)))
                          (float_of_int 1000)) in
format_0 2 hours +:+ ":" +:+ format_0 2 minutes +:+ ":" +:+ format_0 2 seconds
  +:+ "," +:+ format_0 3 milliseconds.

(** One element of Whisper's [result["segments"]]. *)
Record Segment := {
seg_start : Z;
seg_end : Z;
seg_text : string
}.

(** ** The process and its file system *)

Inductive node :=
| Dir
| File (content : string).

(** The calls to the external collaborators. *)
Inductive event :=
| EvDownload (command : string)
| EvTranscribe (audio_file path_or_hf_repo : string) (language : option string).

Record World := {
cwd : string;
fs : gmap string node;
trace : list event
}.

Import PosixPath.

Definition set_fs (w : World) (m : gmap string node) : World :=
{| cwd := cwd w; fs := m; trace := trace w |}.

Definition log (w : World) (e : event) : World :=
{| cwd := cwd w; fs := fs w; trace := trace w ++ [e] |}.

(** [os.path.exists(p)]: paths are resolved as [abspath] does (no symbolic
  links). *)
Definition path_exists (w : World) (p : string) : bool :=
match fs w !! abspath (cwd w) p with
| Some _ => true
| None => false
end.

(** [os.makedirs(p, exist_ok=True)] for a directory directly below an
  existing one: a directory already there is kept, a file there raises. *)
Definition makedirs (p : string) (w : World) : option World :=
let key := abspath (cwd w) p in
match fs w !! key with
| Some Dir => Some w
| Some (File _) => None
| None => Some (set_fs w (<[key := Dir]> (fs w)))
end.

(** [os.chdir(p)] *)
Definition chdir (p : string) (w : World) : option World :=
let key := abspath (cwd w) p in
match fs w !! key with
| Some Dir => Some {| cwd := key; fs := fs w; trace := trace w |}
| _ => None
end.

(** [open(p, "w")]: the file is created or emptied; raises on a directory
  and when the directory of [p] is missing. The result is the key of the
  open file. *)
Definition open_w (p : string) (w : World) : option (string * World) :=
let key := abspath (cwd w) p in
let parent := dirname key in
let parent_ok :=
  if all_char "/" parent then true
  else match fs w !! parent with Some Dir => true | _ => false end in
match fs w !! key with
| Some Dir => None
| _ => if parent_ok
       then Some (key, set_fs w (<[key := File ""]> (fs w)))
       else None
end.

(** [f.write(s)] on the file opened under [key]. *)
Definition f_write (key s : string) (w : World) : World :=
match fs w !! key with
| Some (File c) => set_fs w (<[key := File (c +:+ s)]> (fs w))
| _ => w
end.

(** [enumerate(l, start=i)] *)
Fixpoint enumerate {A} (l : list A) (i : Z) : list (Z * A) :=
match l with
| [] => []
| x :: l' => (i, x) :: enumerate l' (i + 1)
end.

(** The body of the [for] loop of [write_srt]. *)
Definition write_block (key : string) (w : World) (iseg : Z * Segment) : World :=
let '(i, seg) := iseg in
let start_time := sec_to_timestamp (seg_start seg) in
let end_time := sec_to_timestamp (seg_end seg) in
let text := strip (seg_text seg) in
let w := f_write key (str i +:+ nl) w in
let w := f_write key (start_time +:+ " --> " +:+ end_time +:+ nl) w in
f_write key (text +:+ nl +:+ nl) w.

Definition write_srt (segments : list Segment) (srt_path : string) (w : World)
: option World :=
match open_w srt_path w with
| None => None
| Some (key, w) => Some (fold_left (write_block key) (enumerate segments 1) w)
end.

(** ** generate_srt *)

Definition default_model : string := "mlx-community/whisper-large-v3-turbo-q4".

Definition model_map : gmap string string :=
list_to_map [
  ("tiny", "mlx-community/whisper-tiny-mlx");
  ("base", "mlx-community/whisper-base-mlx");
  ("small", "mlx-community/whisper-small-mlx");
  ("medium", "mlx-community/whisper-medium-mlx");
  ("large", "mlx-community/whisper-large-v3-mlx");
  ("large-4bit", "mlx-community/whisper-large-v3-mlx-4bit");
  ("turbo", "mlx-community/whisper-large-v3-turbo");
  ("turbo-4bit", "mlx-community/whisper-large-v3-turbo-q4")
].

(** [model_map.get(model_size.lower(), "mlx-community/...-turbo-q4")] *)
Definition model_path (model_size : string) : string :=
default default_model (model_map !! lower model_size).

(** The path with the counter, [f"{base_name}_{model_short_name}_{counter:02d}.srt"]. *)
Definition numbered_srt_path (base_name model_short_name : string) (counter : Z)
: string :=
base_name +:+ "_" +:+ model_short_name +:+ "_" +:+ format_0 2 counter +:+ ".srt".

(** The [while os.path.exists(srt_path)] loop, run for at most [fuel]
  tests. *)
Fixpoint free_srt_path (fuel : nat) (w : World) (base_name model_short_name : string)
  (srt_path : string) (counter : Z) : option string :=
match fuel with
| O => None
| S fuel' =>
    if path_exists w srt_path
    then free_srt_path fuel' w base_name model_short_name
           (numbered_srt_path base_name model_short_name counter) (counter + 1)
    else Some srt_path
end.

(** Lines 99 to 109: the subtitle path for [audio_file] and [model_size].
  The loop stops after at most one test more than the file system has
  entries. *)
Definition resolve_srt_path (audio_file model_size : string) (w : World)
: option string :=
let base_name := fst (splitext audio_file) in
let model_short_name := lower model_size in
let srt_base_path := base_name +:+ "_" +:+ model_short_name +:+ ".srt" in
free_srt_path (S (size (fs w))) w base_name model_short_name srt_base_path 2.

Section Pipeline.

(** yt-dlp, run through the shell on [command]: whether it exited with
    status 0, and the file system it left. *)
Variable yt_dlp : string -> World -> bool * gmap string node.

(** [mlx_whisper.transcribe]: the segments of its result, or [None] when
    it raises, and the file system it left. *)
Variable transcribe :
  string -> string -> option string -> World
  -> option (list Segment) * gmap string node.

(** [subprocess.run(command, shell=True, check=True)]: [false] when it
    raises [CalledProcessError]. *)
Definition subprocess_run (command : string) (w : World) : bool * World :=
  let '(ok, m) := yt_dlp command w in
  (ok, set_fs (log w (EvDownload command)) m).

Definition download_youtube_audio (url format : string) (w : World)
  : option string * World :=
  if String.eqb url "" then (None, w)
  else
    let workspace_dir := join (cwd w) "whisper_workspace" in
    match makedirs workspace_dir w with
    | None => (None, w)
    | Some w =>
        match chdir workspace_dir w with
        | None => (None, w)
        | Some w =>
            let video_id := take 11 (last_piece (split "watch?v=" url)) in
            let expected_file := "youtube_" +:+ video_id +:+ "." +:+ format in
            if path_exists w expected_file
            then (Some (abspath (cwd w) expected_file), w)
            else
              let output_template := "youtube_" +:+ video_id +:+ ".%(ext)s" in
              let command :=
                "yt-dlp " +:+ "--hls-use-mpegts " +:+ "--force-overwrites "
                +:+ "-x --audio-format " +:+ format +:+ " "
                +:+ "-o '" +:+ output_template +:+ "' "
                +:+ "'" +:+ url +:+ "'" in
              let '(ok, w) := subprocess_run command w in
              if ok then
                if path_exists w expected_file
                then (Some (abspath (cwd w) expected_file), w)
                else (None, w)
              else (None, w)
        end
    end.

Definition generate_srt (audio_file model_size language : string) (w : World)
  : option string * World :=
  if negb (path_exists w audio_file) then (None, w)
  else
    let model_path := model_path model_size in
    let transcribe_kwargs :=
      if negb (String.eqb (lower language) "auto") then Some language else None in
    let '(result, m) := transcribe audio_file model_path transcribe_kwargs w in
    let w := set_fs (log w (EvTranscribe audio_file model_path transcribe_kwargs)) m in
    match result with
    | None => (None, w)
    | Some segments =>
        match resolve_srt_path audio_file model_size w with
        | None => (None, w)
        | Some srt_path =>
            match write_srt segments srt_path w with
            | None => (None, w)
            | Some w => (Some srt_path, w)
            end
        end
    end.

Definition process_youtube_to_srt (url audio_format model_size language : string)
    (w : World) : option string * World :=
  let '(audio_path, w) := download_youtube_audio url audio_format w in
  match audio_path with
  | None => (None, w)
  | Some audio_path =>
      if String.eqb audio_path "" then (None, w)
      else
        let '(srt_path, w) := generate_srt audio_path model_size language w in
        match srt_path with
        | None => (None, w)
        | Some srt_path =>
            if String.eqb srt_path "" then (None, w) else (Some srt_path, w)
        end
  end.

End Pipeline.

(** ** Auxiliary definitions of the properties *)

(** Equality of comparison results. *)
Definition comparison_eqb (c1 c2 : comparison) : bool :=
  match c1, c2 with Eq, Eq | Lt, Lt | Gt, Gt => true | _, _ => false end.

(** The integers below [n] with their [format_0] field. *)
Definition field_table (width n : nat) : list (Z * string) :=
  map (fun i => (Z.of_nat i, format_0 width (Z.of_nat i))) (seq 0 n).

(** On that table a field has [width] characters, and fields compare as
    their integers do. *)
Definition field_order_ok (width n : nat) : bool :=
  let t := field_table width n in
  forallb (fun p => forallb (fun q =>
     (comparison_eqb (String.compare (snd p) (snd q)) (fst p ?= fst q)
      && Nat.eqb (String.length (snd p)) width)%bool) t) t.

(** The concatenation of a list of strings. *)
Fixpoint concat_str (l : list string) : string :=
  match l with
  | [] => ""
  | s :: l' => s +:+ concat_str l'
  end.

(** One block of the subtitle document: what the three [f.write] of the loop
    body of [write_srt] append for the segment at position [fst iseg]. *)
Definition srt_block (iseg : Z * Segment) : string :=
  str (fst iseg) +:+ nl
  +:+ sec_to_timestamp (seg_start (snd iseg)) +:+ " --> "
  +:+ sec_to_timestamp (seg_end (snd iseg)) +:+ nl
  +:+ strip (seg_text (snd iseg)) +:+ nl +:+ nl.

(** Only whitespace; a whitespace first character; a whitespace last
    character. *)
Fixpoint all_space (s : string) : bool :=
  match s with
  | String c s' => is_space c && all_space s'
  | EmptyString => true
  end.

Definition starts_space (s : string) : bool :=
  match s with String c _ => is_space c | EmptyString => false end.

Fixpoint ends_space (s : string) : bool :=
  match s with
  | EmptyString => false
  | String c EmptyString => is_space c
  | String _ s' => ends_space s'
  end.

(** No separator in [s]. *)
Fixpoint no_slash (s : string) : bool :=
  match s with
  | String c s' => negb (Ascii.eqb "/" c) && no_slash s'
  | EmptyString => true
  end.

(** The value a string of decimal digits stands for. *)
Definition decode_decimal (s : string) : option Z :=
  option_map Z.of_uint (NilEmpty.uint_of_string s).

(** The [k]-th path the loop of [generate_srt] tests. *)
Definition srt_candidate (base_name model_short_name : string) (k : nat) : string :=
  match k with
  | O => base_name +:+ "_" +:+ model_short_name +:+ ".srt"
  | S j => numbered_srt_path base_name model_short_name (Z.of_nat j + 2)
  end.

(** A directory prefix: empty, or ending with the separator. *)
Definition dir_part (d : string) : Prop := d = "" \/ exists s, d = s +:+ "/".

(** A path component that [normpath] keeps as it is. *)
Definition plain_comp (c : string) : Prop :=
  no_slash c = true /\ c <> "" /\ c <> "." /\ c <> "..".

(** What follows the last separator of [s]. *)
Definition last_comp (s : string) : string := last_piece (split "/" s).

(** What follows [base_name_model] in the [k]-th path tested. *)
Definition srt_suffix (k : nat) : string :=
  match k with
  | O => ".srt"
  | S j => "_" +:+ format_0 2 (Z.of_nat j + 2) +:+ ".srt"
  end.

(** The state in which a second run of the program starts: the file system
    and the calls of [w], the current directory [dir]. *)
Definition restart (dir : string) (w : World) : World :=
  {| cwd := dir; fs := fs w; trace := trace w |}.

(** A call to the transcription engine. *)
Definition is_transcribe (e : event) : bool :=
  match e with EvTranscribe _ _ _ => true | EvDownload _ => false end.

(** ** The timestamp as the specification words it *)

(** The decomposition as the specification words it, with the
    milliseconds rounded to the nearest integer. *)
Definition spec_milliseconds (sec : Z) : Z := round_half_even (sec mod U * 1000) U.

Definition spec_encode (sec : Z) : string :=
  format_0 2 (sec / (3600 * U)) +:+ ":" +:+ format_0 2 (sec mod (3600 * U) / (60 * U))
  +:+ ":" +:+ format_0 2 (sec mod (60 * U) / U) +:+ "," +:+ format_0 3 (spec_milliseconds sec).

(** ** States and collaborators of the examples *)

Definition ex_home : World :=
  {| cwd := "/home/user"; fs := {[ "/home/user" := Dir ]}; trace := [] |}.

Definition ex_url : string := "https://www.youtube.com/watch?v=abc12345678".

(** A yt-dlp that succeeds and leaves the audio of [ex_url] in the current
    directory. *)
Definition yt_dlp_ok (command : string) (w : World) : bool * gmap string node :=
  (true, <[abspath (cwd w) "youtube_abc12345678.mp3" := File "audio"]> (fs w)).

(** A yt-dlp that exits with an error and leaves the file system as it was. *)
Definition yt_dlp_fail (command : string) (w : World) : bool * gmap string node :=
  (false, fs w).

(** A transcription of one segment. *)
Definition transcribe_hello (audio_file path_or_hf_repo : string)
    (language : option string) (w : World) : option (list Segment) * gmap string node :=
  (Some [ {| seg_start := 0; seg_end := float_of_int 2; seg_text := " Hello world " |} ],
   fs w).

Definition ex_world : World :=
  {| cwd := "/home/user/whisper_workspace";
     fs := {[ "/home/user/whisper_workspace" := Dir ]};
     trace := [] |}.

Definition ex_srt_path : string := "/home/user/whisper_workspace/youtube_abc12345678_tiny.srt".

Definition hi_segment : Segment :=
  {| seg_start := 0; seg_end := decimal 15 10; seg_text := "hi" |}.

(** Two segments in the wrong order, the first ending before it starts. *)
Definition out_of_order_segments : list Segment :=
  [ {| seg_start := float_of_int 5; seg_end := float_of_int 4; seg_text := "b" |};
    {| seg_start := float_of_int 1; seg_end := float_of_int 2; seg_text := "a" |} ].

Definition hi_document : string :=
  "1" +:+ nl +:+ "00:00:00,000 --> 00:00:01,500" +:+ nl +:+ "hi" +:+ nl +:+ nl.

Definition ex_srt_world : World :=
  {| cwd := "/home/user/whisper_workspace";
     fs := {[ "/home/user/whisper_workspace" := Dir;
              "/home/user/whisper_workspace/youtube_abc12345678.mp3" := File "audio";
              "/home/user/whisper_workspace/youtube_abc12345678_tiny.srt" := File "";
              "/home/user/whisper_workspace/youtube_abc12345678_tiny_02.srt" := File "" ]};
     trace := [] |}.

(** ** Names of the acquisition, the front end and further examples *)

(** A component that [normpath] keeps in an absolute path. *)
Definition clean_comp (c : string) : Prop :=
  no_slash c = true /\ c <> "" /\ c <> "." /\ c <> "..".

(** [sep in s] *)
Fixpoint contains (sep s : string) : bool :=
  match s with
  | EmptyString => String.prefix sep s
  | String _ s' => String.prefix sep s || contains sep s'
  end.

(** The names of lines 16 to 41 of [download_youtube_audio]: the key of the
    workspace directory, the video identifier, the file looked for and the
    command run. *)
Definition workspace_key (w : World) : string :=
  abspath (cwd w) (join (cwd w) "whisper_workspace").

Definition video_id (url : string) : string :=
  take 11 (last_piece (split "watch?v=" url)).

Definition expected_file (url format : string) : string :=
  "youtube_" +:+ video_id url +:+ "." +:+ format.

Definition yt_dlp_command (url format : string) : string :=
  "yt-dlp --hls-use-mpegts --force-overwrites -x --audio-format " +:+ format
  +:+ " -o 'youtube_" +:+ video_id url +:+ ".%(ext)s' '" +:+ url +:+ "'".

(** The state once [os.makedirs] and [os.chdir] have succeeded. *)
Definition entered (w : World) : World :=
  {| cwd := workspace_key w;
     fs := match fs w !! workspace_key w with
           | None => <[workspace_key w := Dir]> (fs w)
           | Some _ => fs w
           end;
     trace := trace w |}.

(** The state yt-dlp leaves when it is run from [entered w]. *)
Definition downloaded (yt_dlp : string -> World -> bool * gmap string node)
    (url format : string) (w : World) : World :=
  {| cwd := workspace_key w;
     fs := snd (yt_dlp (yt_dlp_command url format) (entered w));
     trace := trace w ++ [EvDownload (yt_dlp_command url format)] |}.

(** [bool(x)] of an optional string: [None] and [""] are false. *)
Definition truthy (x : option string) : bool :=
  match x with
  | Some s => negb (String.eqb s "")
  | None => false
  end.

(** [x if x else d] *)
Definition or_default (x : option string) (d : string) : string :=
  match x with
  | Some s => if String.eqb s "" then d else s
  | None => d
  end.

(** [input(prompt)]: the next line of the standard input, without its end
    of line; [None] is [EOFError]. *)
Definition input (stdin : list string) : option (string * list string) :=
  match stdin with
  | [] => None
  | line :: rest => Some (line, rest)
  end.

(** The namespace [parse_args] returns. *)
Record Args := {
  youtube_url : option string;
  arg_language : option string;
  arg_model : option string;
  arg_audio_format : option string
}.

Section Frontend.

Variable yt_dlp : string -> World -> bool * gmap string node.
Variable transcribe :
  string -> string -> option string -> World
  -> option (list Segment) * gmap string node.

(** [interactive_mode]. The function returns nothing; the model returns the
    value of [srt_file], which decides its last message, with what is left
    of the standard input. [None] is an uncaught [EOFError]. *)
Definition interactive_mode (url language model_size : option string)
    (audio_format : string) (stdin : list string) (w : World)
  : option (option string * list string * World) :=
  match (if truthy url then Some (or_default url "", stdin)
         else match input stdin with
              | Some (line, rest) => Some (strip line, rest)
              | None => None
              end) with
  | None => None
  | Some (url, stdin) =>
      match (if truthy language then Some (or_default language "", stdin)
             else match input stdin with
                  | Some (line, rest) =>
                      let lang_input := strip line in
                      Some (if String.eqb lang_input "" then "auto" else lang_input, rest)
                  | None => None
                  end) with
      | None => None
      | Some (language, stdin) =>
          match (if truthy model_size then Some (or_default model_size "", stdin)
                 else match input stdin with
                      | Some (line, rest) =>
                          let model_size_input := strip line in
                          Some (if String.eqb model_size_input "" then "turbo-4bit"
                                else model_size_input, rest)
                      | None => None
                      end) with
          | None => None
          | Some (model_size, stdin) =>
              let '(srt_file, w) :=
                process_youtube_to_srt yt_dlp transcribe url audio_format model_size
                  language w in
              Some (srt_file, stdin, w)
          end
      end
  end.

(** [main], from the result [args] of [parser.parse_args()] on; [argc] is
    [len(sys.argv)]. The result is as for [interactive_mode]. *)
Definition main (argc : nat) (args : Args) (stdin : list string) (w : World)
  : option (option string * list string * World) :=
  match (Nat.eqb argc 1), youtube_url args with
  | true, _ | _, None => interactive_mode None None None "mp3" stdin w
  | false, Some url =>
      let language := or_default (arg_language args) "auto" in
      let model_size := or_default (arg_model args) "turbo-4bit" in
      let audio_format := or_default (arg_audio_format args) "mp3" in
      let run stdin :=
        let '(srt_file, w) :=
          process_youtube_to_srt yt_dlp transcribe url audio_format model_size
            language w in
        Some (srt_file, stdin, w) in
      if (negb (String.eqb url "") && negb (truthy (arg_language args))
          && negb (truthy (arg_model args)) && negb (truthy (arg_audio_format args)))%bool
      then
        match input stdin with
        | None => None
        | Some (line, stdin) =>
            let use_interactive := lower (strip line) in
            if (negb (String.eqb use_interactive "") && starts_with "y" use_interactive)%bool
            then interactive_mode (Some url) None None "mp3" stdin w
            else run stdin
        end
      else run stdin
  end.

End Frontend.

Definition ex_short_url_1 : string := "https://youtu.be/abc12345678".
Definition ex_short_url_2 : string := "https://youtu.be/zyx98765432".

(** A yt-dlp that succeeds and leaves the file its [-o] template names for
    the URLs of the examples that have no [watch?v=]. *)
Definition yt_dlp_short (command : string) (w : World) : bool * gmap string node :=
  (true, <[abspath (cwd w) "youtube_https://you.mp3" := File "audio"]> (fs w)).

(** A yt-dlp that exits with status 0 and writes nothing. *)
Definition yt_dlp_nothing (command : string) (w : World) : bool * gmap string node :=
  (true, fs w).

(** [transcribe_kwargs] of [generate_srt]: the language, unless it is "auto". *)
Definition language_kwarg (language : string) : option string :=
  if negb (String.eqb (lower language) "auto") then Some language else None.


(** A state with a subtitle of an earlier run. *)
Definition ex_old_world : World :=
  {| cwd := "/home/user/whisper_workspace";
     fs := {[ "/home/user/whisper_workspace" := Dir;
              "/home/user/whisper_workspace/youtube_abc12345678.mp3" := File "audio";
              "/home/user/whisper_workspace/youtube_abc12345678_tiny.srt" := File "old" ]};
     trace := [] |}.

Definition ex_args_url_only : Args :=
  {| youtube_url := Some ex_url; arg_language := None; arg_model := None;
     arg_audio_format := None |}.

Definition ex_args_flags_only : Args :=
  {| youtube_url := None; arg_language := Some "ja"; arg_model := Some "tiny";
     arg_audio_format := Some "wav" |}.

Definition ex_args_language : Args :=
  {| youtube_url := Some ex_url; arg_language := Some "ja"; arg_model := None;
     arg_audio_format := None |}.

(** The number of lines [interactive_mode] reads for a value: one when the
    value is not given, none otherwise. *)
Definition asked (x : option string) : nat := if truthy x then 0 else 1.

(** A state where the name of the workspace is taken by a file. *)
Definition ex_blocked_world : World :=
  {| cwd := "/home/user";
     fs := {[ "/home/user" := Dir; "/home/user/whisper_workspace" := File "notes" ]};
     trace := [] |}.

Definition ex_args_empty_url : Args :=
  {| youtube_url := Some ""; arg_language := None; arg_model := Some "tiny";
     arg_audio_format := None |}.

(** * Properties *)

(** ** Rounding *)

Lemma rhe_exact m d : 0 < d -> round_half_even (m * d) d = m.
Proof.
  intros Hd. unfold round_half_even.
  rewrite Z.div_mul, Z.mod_mul by lia.
  destruct (Z.ltb_spec (2 * 0) d); [reflexivity | lia].
Qed.

Lemma rhe_le n m d : 0 < d -> n <= m * d -> round_half_even n d <= m.
Proof.
  intros Hd Hn. unfold round_half_even.
  pose proof (Z.div_mod n d ltac:(lia)) as E.
  pose proof (Z.mod_pos_bound n d Hd) as B.
  assert (n / d <= m) by nia.
  destruct (Z.ltb_spec (2 * (n mod d)) d); [lia|].
  assert (n / d < m) by nia.
  destruct (Z.ltb_spec d (2 * (n mod d))); [lia|].
  destruct (Z.even (n / d)); lia.
Qed.

Lemma rhe_ge n m d : 0 < d -> m * d <= n -> m <= round_half_even n d.
Proof.
  intros Hd Hn. unfold round_half_even.
  pose proof (Z.div_mod n d ltac:(lia)) as E.
  pose proof (Z.mod_pos_bound n d Hd) as B.
  assert (m <= n / d) by nia.
  destruct (Z.ltb_spec (2 * (n mod d)) d); [lia|].
  destruct (Z.ltb_spec d (2 * (n mod d))); [lia|].
  destruct (Z.even (n / d)); lia.
Qed.

Lemma rhe_mono n1 n2 d : 0 < d -> n1 <= n2 -> round_half_even n1 d <= round_half_even n2 d.
Proof.
  intros Hd Hn.
  pose proof (Z.div_mod n1 d ltac:(lia)) as E1.
  pose proof (Z.mod_pos_bound n1 d Hd) as B1.
  pose proof (Z.div_mod n2 d ltac:(lia)) as E2.
  pose proof (Z.mod_pos_bound n2 d Hd) as B2.
  assert (Hq : n1 / d <= n2 / d) by (apply Z.div_le_mono; lia).
  destruct (Z.eq_dec (n1 / d) (n2 / d)) as [Heq | Hne].
  - assert (n1 mod d <= n2 mod d) by nia.
    unfold round_half_even. rewrite <- Heq.
    destruct (Z.ltb_spec (2 * (n1 mod d)) d), (Z.ltb_spec (2 * (n2 mod d)) d); try lia;
    destruct (Z.ltb_spec d (2 * (n1 mod d))), (Z.ltb_spec d (2 * (n2 mod d))); try lia;
    destruct (Z.even (n1 / d)); lia.
  - transitivity (n2 / d).
    + apply rhe_le; [lia | nia].
    + apply rhe_ge; [lia | nia].
Qed.

Lemma ulp_of_pos q : 0 < ulp_of q.
Proof. unfold ulp_of. apply Z.pow_pos_nonneg; lia. Qed.

Lemma round_abs_exact z d : 0 <= z -> z mod ulp_of z = 0 -> 0 < d -> round_abs (z * d) d = z.
Proof.
  intros Hz Hf Hd. unfold round_abs.
  rewrite Z.div_mul by lia.
  pose proof (ulp_of_pos z) as Hg.
  apply Z.div_exact in Hf; [|lia].
  rewrite Hf at 2.
  replace (ulp_of z * (z / ulp_of z) * d) with ((z / ulp_of z) * (d * ulp_of z)) by lia.
  rewrite rhe_exact by nia. lia.
Qed.

Lemma round_abs_mono n1 n2 d : 0 < d -> 0 <= n1 <= n2 -> round_abs n1 d <= round_abs n2 d.
Proof.
  intros Hd [H0 Hn].
  assert (Hq : 0 <= n1 / d <= n2 / d).
  { split; [apply Z.div_pos; lia | apply Z.div_le_mono; lia]. }
  unfold round_abs, ulp_of.
  set (q1 := n1 / d) in *. set (q2 := n2 / d) in *.
  assert (Hl : Z.log2 q1 <= Z.log2 q2) by (apply Z.log2_le_mono; lia).
  set (k1 := Z.max 0 (Z.log2 q1 - 52)). set (k2 := Z.max 0 (Z.log2 q2 - 52)).
  assert (Hk : 0 <= k1 <= k2) by lia.
  assert (Hg1 : 0 < 2 ^ k1) by (apply Z.pow_pos_nonneg; lia).
  assert (Hg2 : 0 < 2 ^ k2) by (apply Z.pow_pos_nonneg; lia).
  destruct (Z.eq_dec k1 k2) as [Heq | Hne].
  - rewrite <- Heq. apply Z.mul_le_mono_nonneg_l; [lia|].
    apply rhe_mono; nia.
  - assert (Hk2 : k2 = Z.log2 q2 - 52) by lia.
    assert (Hq2 : 0 < q2) by (destruct (Z.eq_dec q2 0) as [e|e]; [rewrite e in *; cbn in *; lia | lia]).
    pose proof (Z.log2_spec q2 Hq2) as [Hlo _].
    assert (Hq1 : q1 < 2 ^ (k2 + 52)).
    { destruct (Z.eq_dec q1 0) as [e|e].
      - rewrite e. apply Z.pow_pos_nonneg; lia.
      - pose proof (Z.log2_spec q1 ltac:(lia)) as [_ Hhi].
        eapply Z.lt_le_trans; [exact Hhi|].
        apply Z.pow_le_mono_r; lia. }
    set (P := 2 ^ (k2 + 52)) in *.
    assert (HP1 : P = 2 ^ (k2 + 52 - k1) * 2 ^ k1).
    { unfold P. rewrite <- Z.pow_add_r by lia. f_equal. lia. }
    assert (HP2 : P = 2 ^ 52 * 2 ^ k2).
    { unfold P. rewrite <- Z.pow_add_r by lia. f_equal. lia. }
    assert (Hn1 : n1 < P * d).
    { pose proof (Z.div_mod n1 d ltac:(lia)) as E.
      pose proof (Z.mod_pos_bound n1 d Hd) as B. fold q1 in E. nia. }
    assert (Hn2 : P * d <= n2).
    { assert (2 ^ Z.log2 q2 = P) by (unfold P; f_equal; lia).
      pose proof (Z.mul_div_le n2 d Hd) as Hm. fold q2 in Hm. nia. }
    transitivity P.
    + assert (round_half_even n1 (d * 2 ^ k1) <= 2 ^ (k2 + 52 - k1)) as Hr.
      { apply rhe_le; [nia|]. rewrite HP1 in Hn1. lia. }
      rewrite HP1. nia.
    + assert (2 ^ 52 <= round_half_even n2 (d * 2 ^ k2)) as Hr.
      { apply rhe_ge; [nia|]. rewrite HP2 in Hn2. lia. }
      rewrite HP2. nia.
Qed.

Lemma U_pos : 0 < U.
Proof. unfold U. apply Z.pow_pos_nonneg; lia. Qed.

Lemma fits53_mul_pow2 m e :
  0 <= m < 2 ^ 53 -> 0 <= e -> (m * 2 ^ e) mod ulp_of (m * 2 ^ e) = 0.
Proof.
  intros [H0 Hm] He.
  destruct (Z.eq_dec m 0) as [-> | Hne]; [now rewrite Z.mul_0_l, Z.mod_0_l by (pose proof (ulp_of_pos 0); lia)|].
  unfold ulp_of. rewrite Z.log2_mul_pow2 by lia.
  assert (Z.log2 m < 53) by (apply Z.log2_lt_pow2; lia).
  set (k := Z.max 0 (e + Z.log2 m - 52)).
  assert (0 <= k <= e) by lia.
  replace (2 ^ e) with (2 ^ (e - k) * 2 ^ k) by (rewrite <- Z.pow_add_r by lia; f_equal; lia).
  rewrite Z.mul_assoc. apply Z.mod_mul.
  pose proof (Z.pow_pos_nonneg 2 k); lia.
Qed.

Lemma fits53_int k : Z.abs k < 2 ^ 53 -> fits53 (k * U).
Proof.
  intros Hk. unfold fits53. pose proof U_pos.
  rewrite Z.abs_mul, (Z.abs_eq U) by lia.
  apply fits53_mul_pow2; lia.
Qed.

Lemma rnd_exact z d : fits53 z -> 0 < d -> rnd (z * d) d = z.
Proof.
  intros Hz Hd. unfold rnd, fits53 in *.
  rewrite Z.abs_mul, (Z.abs_eq d) by lia.
  rewrite round_abs_exact by (auto; lia).
  rewrite Z.sgn_mul, (Z.sgn_pos d) by lia. lia.
Qed.

Lemma rnd_exact1 z : fits53 z -> rnd z 1 = z.
Proof. intros Hz. rewrite <- (Z.mul_1_r z) at 1. apply rnd_exact; [assumption | lia]. Qed.

Lemma rnd_nonneg n d : 0 <= n -> 0 < d -> rnd n d = round_abs n d.
Proof.
  intros Hn Hd. unfold rnd. rewrite Z.abs_eq by lia.
  destruct (Z.eq_dec n 0) as [-> | Hne].
  - rewrite <- (Z.mul_0_l d), round_abs_exact; [reflexivity | lia | | lia].
    apply Z.mod_0_l. pose proof (ulp_of_pos 0). lia.
  - rewrite Z.sgn_pos by lia. lia.
Qed.

Lemma float_of_int_exact k : Z.abs k < 2 ^ 53 -> float_of_int k = k * U.
Proof. intros Hk. unfold float_of_int. apply rnd_exact1, fits53_int, Hk. Qed.

Lemma fits53_0 : fits53 0.
Proof. unfold fits53. change (Z.abs 0) with 0. apply Z.mod_0_l. pose proof (ulp_of_pos 0). lia. Qed.

(** [x // w] and [x % w] of a non-negative float by a small positive integer constant. *)
Lemma float_divmod_nonneg x w :
  0 <= x -> 0 < w -> (x / (w * U)) * w < 2 ^ 53 ->
  float_divmod x (w * U) = ((x / (w * U)) * U, x mod (w * U)).
Proof.
  intros Hx Hw Hq. pose proof U_pos as HU.
  assert (HW : 0 < w * U) by nia.
  set (q := x / (w * U)) in *.
  assert (Hq0 : 0 <= q) by (apply Z.div_pos; lia).
  assert (Hq1 : q < 2 ^ 53) by nia.
  unfold float_divmod, fmod.
  rewrite Z.rem_mod_nonneg by lia.
  pose proof (Z.mod_pos_bound x (w * U) HW) as Hm.
  pose proof (Z.div_mod x (w * U) ltac:(lia)) as E. fold q in E.
  assert (Hsub : float_sub x (x mod (w * U)) = (q * w) * U).
  { unfold float_sub. replace (x - x mod (w * U)) with ((q * w) * U) by lia.
    apply rnd_exact1, fits53_int. lia. }
  rewrite Hsub.
  assert (Hdiv : float_div (q * w * U) (w * U) = q * U).
  { unfold float_div. replace (q * w * U * U) with ((q * U) * (w * U)) by lia.
    apply rnd_exact; [apply fits53_int; lia | lia]. }
  rewrite Hdiv.
  assert (Hlt : (w * U <? 0) = false) by (apply Z.ltb_ge; lia).
  assert (Hlt2 : (x mod (w * U) <? 0) = false) by (apply Z.ltb_ge; lia).
  rewrite Hlt, Hlt2. cbn [Bool.eqb negb].
  assert (Hfl : floor (q * U) = q * U) by (unfold floor; rewrite Z.div_mul by lia; reflexivity).
  assert (Hs0 : float_sub (q * U) (q * U) = 0).
  { unfold float_sub. rewrite Z.sub_diag. apply rnd_exact1, fits53_0. }
  assert (Hfd : (if negb (q * U =? 0)
                 then if U <? 2 * float_sub (q * U) (floor (q * U))
                      then float_add (floor (q * U)) (float_of_int 1) else floor (q * U)
                 else 0) = q * U).
  { destruct (Z.eqb_spec (q * U) 0) as [e | e]; cbn [negb]; [lia|].
    rewrite Hfl, Hs0. destruct (Z.ltb_spec U (2 * 0)); [lia | reflexivity]. }
  destruct (Z.eqb_spec (x mod (w * U)) 0) as [e | e]; cbn [negb]; rewrite Hfd, ?e; reflexivity.
Qed.

Lemma float_floordiv_quot x w :
  0 <= x -> 0 < w ->
  float_floordiv x (w * U) = float_floordiv (x / (w * U) * (w * U)) (w * U).
Proof.
  intros Hx Hw. pose proof U_pos as HU.
  assert (HW : 0 < w * U) by nia.
  pose proof (Z.mod_pos_bound x (w * U) HW) as Hm.
  pose proof (Z.div_mod x (w * U) ltac:(lia)) as E.
  assert (Hq0 : 0 <= x / (w * U)) by (apply Z.div_pos; lia).
  unfold float_floordiv, float_divmod, fmod.
  rewrite !Z.rem_mod_nonneg by nia.
  rewrite Z.mod_mul by lia.
  assert (float_sub x (x mod (w * U)) = float_sub (x / (w * U) * (w * U)) 0) as ->.
  { unfold float_sub. f_equal. lia. }
  assert (Hlt : (w * U <? 0) = false) by (apply Z.ltb_ge; lia).
  assert (Hlt2 : (x mod (w * U) <? 0) = false) by (apply Z.ltb_ge; lia).
  rewrite Hlt, Hlt2, Z.eqb_refl. cbn [Bool.eqb negb].
  destruct (Z.eqb_spec (x mod (w * U)) 0); reflexivity.
Qed.

Lemma ulp_of_divide y x : 0 <= y <= x -> (ulp_of y | ulp_of x).
Proof.
  intros [H0 H]. unfold ulp_of.
  assert (Z.log2 y <= Z.log2 x) by (apply Z.log2_le_mono; lia).
  exists (2 ^ (Z.max 0 (Z.log2 x - 52) - Z.max 0 (Z.log2 y - 52))).
  rewrite <- Z.pow_add_r by lia. f_equal. lia.
Qed.

Lemma ulp_of_pow2 q : exists k, 0 <= k /\ ulp_of q = 2 ^ k.
Proof. exists (Z.max 0 (Z.log2 q - 52)). split; [lia | reflexivity]. Qed.

Lemma fits53_below y x :
  0 <= y <= x -> fits53 x ->
  (forall k, 0 <= k -> (2 ^ k | x) -> (2 ^ k | y)) ->
  fits53 y.
Proof.
  intros Hy Hx Hdiv. unfold fits53 in *.
  rewrite Z.abs_eq in * by lia.
  pose proof (ulp_of_pos y). pose proof (ulp_of_pos x).
  apply Z.mod_divide; [lia|].
  destruct (ulp_of_pow2 y) as (k & Hk & E). rewrite E.
  apply Hdiv; [assumption|]. rewrite <- E.
  etransitivity; [apply ulp_of_divide, Hy|].
  apply Z.mod_divide; [lia | assumption].
Qed.

Lemma pow2_divide_U k : 0 <= k -> (2 ^ k | U) \/ (U | 2 ^ k).
Proof.
  intros Hk. unfold U. destruct (Z.le_gt_cases k 1074).
  - left. exists (2 ^ (1074 - k)). rewrite <- Z.pow_add_r by lia. f_equal. lia.
  - right. exists (2 ^ (k - 1074)). rewrite <- Z.pow_add_r by lia. f_equal. lia.
Qed.

Lemma fits53_frac x : 0 <= x -> fits53 x -> fits53 (x mod U).
Proof.
  intros Hx Hf. pose proof U_pos as HU.
  pose proof (Z.mod_pos_bound x U HU) as Hm.
  pose proof (Z.mod_le x U Hx HU).
  apply (fits53_below _ x); [lia | assumption |].
  intros k Hk Hd. destruct (pow2_divide_U k Hk) as [D | D].
  - rewrite Z.mod_eq by lia. apply Z.divide_sub_r; [assumption|].
    apply Z.divide_mul_l, D.
  - assert (x mod U = 0) as ->.
    { apply Z.mod_divide; [lia|]. etransitivity; eassumption. }
    apply Z.divide_0_r.
Qed.

Lemma fits53_floor x : 0 <= x -> fits53 x -> fits53 (x / U * U).
Proof.
  intros Hx Hf. pose proof U_pos as HU.
  pose proof (Z.mod_pos_bound x U HU) as Hm.
  pose proof (Z.div_mod x U ltac:(lia)) as E.
  assert (0 <= x / U) by (apply Z.div_pos; lia).
  apply (fits53_below _ x); [nia | assumption |].
  intros k Hk Hd. destruct (pow2_divide_U k Hk) as [D | D].
  - apply Z.divide_mul_r, D.
  - assert (x mod U = 0) as E0.
    { apply Z.mod_divide; [lia|]. etransitivity; eassumption. }
    replace (x / U * U) with x by lia. assumption.
Qed.

Lemma int_of_float_nonneg x : 0 <= x -> int_of_float x = x / U.
Proof. intros Hx. unfold int_of_float. apply Z.quot_div_nonneg; [lia | apply U_pos]. Qed.

(** The millisecond field as the code computes it. *)
Lemma milliseconds_nonneg x :
  0 <= x -> fits53 x ->
  int_of_float (float_mul (float_sub x (float_of_int (int_of_float x))) (float_of_int 1000))
  = round_abs (x mod U * (1000 * U)) U / U.
Proof.
  intros Hx Hf. pose proof U_pos as HU.
  pose proof (Z.mod_pos_bound x U HU) as Hm.
  rewrite (int_of_float_nonneg x Hx).
  assert (float_of_int (x / U) = x / U * U) as ->.
  { unfold float_of_int. apply rnd_exact1, fits53_floor; assumption. }
  assert (float_sub x (x / U * U) = x mod U) as ->.
  { unfold float_sub. rewrite Z.mod_eq by lia.
    replace (x - x / U * U) with (x - U * (x / U)) by lia.
    rewrite <- Z.mod_eq by lia. apply rnd_exact1, fits53_frac; assumption. }
  rewrite float_of_int_exact by (cbn; lia).
  unfold float_mul. rewrite rnd_nonneg by nia.
  apply int_of_float_nonneg.
  unfold round_abs. pose proof (ulp_of_pos (x mod U * (1000 * U) / U)).
  apply Z.mul_nonneg_nonneg; [lia|].
  apply rhe_ge; [nia | nia].
Qed.

Lemma U_split : U = 2 ^ 53 * 2 ^ 1021.
Proof. unfold U. rewrite <- Z.pow_add_r by lia. reflexivity. Qed.

Lemma fits53_frac_max y : 0 <= y < U -> fits53 y -> y <= U - 2 ^ 1021.
Proof.
  intros [H0 Hy] Hf. unfold fits53 in Hf. rewrite Z.abs_eq in Hf by lia.
  assert (HE : 0 < 2 ^ 1021) by (apply Z.pow_pos_nonneg; lia).
  assert (H53 : 2 ^ 53 = 9007199254740992) by reflexivity.
  assert (HU2 : U = 2 * 2 ^ 1073).
  { unfold U. change 1074 with (1 + 1073). rewrite Z.pow_add_r by lia. reflexivity. }
  assert (H73 : 2 ^ 1073 = 2 ^ 52 * 2 ^ 1021).
  { rewrite <- Z.pow_add_r by lia. reflexivity. }
  assert (H52 : 2 ^ 52 = 4503599627370496) by reflexivity.
  destruct (Z.lt_ge_cases y (2 ^ 1073)) as [Hlt | Hge].
  - rewrite U_split. lia.
  - assert (Z.log2 y = 1073) as Hl.
    { apply Z.log2_unique; [lia|]. change (1073 + 1) with 1074. fold U. lia. }
    unfold ulp_of in Hf. rewrite Hl in Hf. change (Z.max 0 (1073 - 52)) with 1021 in Hf.
    apply Z.div_exact in Hf; [|lia].
    rewrite U_split in Hy |- *.
    set (m := y / 2 ^ 1021) in *. nia.
Qed.

Lemma milliseconds_bounds y :
  0 <= y < U -> fits53 y ->
  let v := round_abs (y * (1000 * U)) U / U in
  y * 1000 / U <= v /\ v <= y * 1000 / U + 1 /\ v <= 999.
Proof.
  intros Hy Hf v. pose proof U_pos as HU.
  set (k := y * 1000 / U).
  pose proof (Z.div_mod (y * 1000) U ltac:(lia)) as E. fold k in E.
  pose proof (Z.mod_pos_bound (y * 1000) U HU) as Hm.
  assert (Hk : 0 <= k < 1000).
  { split; [apply Z.div_pos; lia | apply Z.div_lt_upper_bound; lia]. }
  assert (Hex : forall j, 0 <= j <= 1000 -> round_abs (j * U * U) U = j * U).
  { intros j Hj. apply round_abs_exact; [nia | | lia].
    assert (fits53 (j * U)) as F.
    { apply fits53_int. rewrite Z.abs_eq by lia.
      change (2 ^ 53) with 9007199254740992. lia. }
    unfold fits53 in F. rewrite Z.abs_eq in F by nia. exact F. }
  repeat split; unfold v.
  - apply Z.div_le_lower_bound; [lia|].
    transitivity (round_abs (k * U * U) U); [rewrite Hex; lia|].
    apply round_abs_mono; nia.
  - apply Z.div_le_upper_bound; [lia|].
    transitivity (round_abs ((k + 1) * U * U) U); [|rewrite Hex; lia].
    apply round_abs_mono; nia.
  - pose proof (fits53_frac_max y Hy Hf) as Hmax.
    assert (round_abs ((U - 2 ^ 1021) * (1000 * U)) U < 1000 * U) as Hc.
    { apply Z.ltb_lt. vm_compute. reflexivity. }
    assert (round_abs (y * (1000 * U)) U < 1000 * U) as Hlt.
    { eapply Z.le_lt_trans; [|exact Hc]. apply round_abs_mono; nia. }
    assert (round_abs (y * (1000 * U)) U / U < 1000) by (apply Z.div_lt_upper_bound; lia).
    lia.
Qed.

(** ** Order of the formatted fields *)

Lemma comparison_eqb_eq c1 c2 : comparison_eqb c1 c2 = true -> c1 = c2.
Proof. destruct c1, c2; simpl; congruence. Qed.

Lemma field_table_In width n z :
  0 <= z < Z.of_nat n -> In (z, format_0 width z) (field_table width n).
Proof.
  intros Hz. unfold field_table. apply in_map_iff.
  exists (Z.to_nat z). rewrite Z2Nat.id by lia. split; [reflexivity|].
  apply in_seq. lia.
Qed.

Lemma field_order_spec width n :
  field_order_ok width n = true ->
  forall a b, 0 <= a < Z.of_nat n -> 0 <= b < Z.of_nat n ->
  String.compare (format_0 width a) (format_0 width b) = (a ?= b)
  /\ String.length (format_0 width a) = width.
Proof.
  unfold field_order_ok. intros H a b Ha Hb.
  rewrite forallb_forall in H.
  specialize (H _ (field_table_In width n a Ha)).
  rewrite forallb_forall in H.
  specialize (H _ (field_table_In width n b Hb)). cbn [fst snd] in H.
  apply andb_prop in H as [H1 H2].
  split; [apply comparison_eqb_eq, H1 | apply Nat.eqb_eq, H2].
Qed.

Lemma field2_ok : field_order_ok 2 100 = true.
Proof. vm_compute. reflexivity. Qed.

Lemma field3_ok : field_order_ok 3 1000 = true.
Proof. vm_compute. reflexivity. Qed.

Lemma ascii_compare_refl c : Ascii.compare c c = Eq.
Proof. unfold Ascii.compare. apply N.compare_refl. Qed.

Lemma compare_app_same p s t : String.compare (p +:+ s) (p +:+ t) = String.compare s t.
Proof.
  induction p as [|c p IH]; simpl; [reflexivity|].
  now rewrite ascii_compare_refl.
Qed.

Lemma compare_app_eqlen f1 : forall f2 r1 r2,
  String.length f1 = String.length f2 ->
  String.compare (f1 +:+ r1) (f2 +:+ r2)
  = match String.compare f1 f2 with Eq => String.compare r1 r2 | c => c end.
Proof.
  induction f1 as [|c f1 IH]; intros [|d f2] r1 r2 Hl; cbn in Hl; try discriminate.
  - reflexivity.
  - simpl. destruct (Ascii.compare c d); auto.
Qed.

(** ** The fields of a timestamp *)

Lemma div_mod_split x b c :
  0 < b -> 0 < c -> x mod (c * b) / b = x / b - c * (x / (c * b)).
Proof.
  intros Hb Hc.
  assert (Hcb : 0 < c * b) by nia.
  pose proof (Z.div_mod x (c * b) ltac:(lia)) as E.
  assert (x / b = c * (x / (c * b)) + x mod (c * b) / b) as ->; [|lia].
  rewrite E at 1.
  replace (c * b * (x / (c * b))) with (c * (x / (c * b)) * b) by lia.
  apply Z.div_add_l. lia.
Qed.

Lemma minutes_eq x : x mod (3600 * U) / (60 * U) = x / (60 * U) - 60 * (x / (3600 * U)).
Proof.
  pose proof U_pos.
  replace (3600 * U) with (60 * (60 * U)) by lia.
  apply div_mod_split; lia.
Qed.

Lemma seconds_eq x : x mod (60 * U) / U = x / U - 60 * (x / (60 * U)).
Proof. pose proof U_pos. apply div_mod_split; lia. Qed.

Lemma minutes_range x : 0 <= x -> 0 <= x mod (3600 * U) / (60 * U) < 60.
Proof.
  intros Hx. pose proof U_pos.
  pose proof (Z.mod_pos_bound x (3600 * U) ltac:(lia)).
  split; [apply Z.div_pos; lia | apply Z.div_lt_upper_bound; lia].
Qed.

Lemma seconds_range x : 0 <= x -> 0 <= x mod (60 * U) / U < 60.
Proof.
  intros Hx. pose proof U_pos.
  pose proof (Z.mod_pos_bound x (60 * U) ltac:(lia)).
  split; [apply Z.div_pos; lia | apply Z.div_lt_upper_bound; lia].
Qed.

(** The four fields of [sec_to_timestamp] on a non-negative float. *)
Lemma sec_to_timestamp_nonneg x :
  0 <= x -> fits53 x ->
  sec_to_timestamp x
  = (format_0 2 (int_of_float (float_floordiv (x / (3600 * U) * (3600 * U)) (3600 * U)))
     +:+ ":" +:+ format_0 2 (x mod (3600 * U) / (60 * U))
     +:+ ":" +:+ format_0 2 (x mod (60 * U) / U)
     +:+ "," +:+ format_0 3 (round_abs (x mod U * (1000 * U)) U / U))%string.
Proof.
  intros Hx Hf. pose proof U_pos as HU. unfold sec_to_timestamp.
  rewrite (milliseconds_nonneg x Hx Hf).
  rewrite !float_of_int_exact by (cbn; lia).
  rewrite <- (float_floordiv_quot x 3600) by lia.
  pose proof (Z.mod_pos_bound x (3600 * U) ltac:(lia)) as H1.
  pose proof (Z.mod_pos_bound x (60 * U) ltac:(lia)) as H2.
  pose proof (minutes_range x Hx) as H3.
  assert (float_mod x (60 * U) = x mod (60 * U)) as ->.
  { unfold float_mod, float_divmod, fmod. rewrite Z.rem_mod_nonneg by lia.
    assert ((60 * U <? 0) = false) as -> by (apply Z.ltb_ge; lia).
    assert ((x mod (60 * U) <? 0) = false) as -> by (apply Z.ltb_ge; lia).
    cbn [Bool.eqb negb].
    destruct (Z.eqb_spec (x mod (60 * U)) 0) as [e|e]; cbn [negb snd]; [rewrite e|]; reflexivity. }
  assert (float_mod x (3600 * U) = x mod (3600 * U)) as ->.
  { unfold float_mod, float_divmod, fmod. rewrite Z.rem_mod_nonneg by lia.
    assert ((3600 * U <? 0) = false) as -> by (apply Z.ltb_ge; lia).
    assert ((x mod (3600 * U) <? 0) = false) as -> by (apply Z.ltb_ge; lia).
    cbn [Bool.eqb negb].
    destruct (Z.eqb_spec (x mod (3600 * U)) 0) as [e|e]; cbn [negb snd]; [rewrite e|]; reflexivity. }
  unfold float_floordiv at 2.
  rewrite (float_divmod_nonneg (x mod (3600 * U)) 60) by (change (2 ^ 53) with 9007199254740992; lia).
  cbn [fst].
  rewrite (int_of_float_nonneg (x mod (3600 * U) / (60 * U) * U)) by nia.
  rewrite Z.div_mul by lia.
  rewrite (int_of_float_nonneg (x mod (60 * U))) by lia.
  reflexivity.
Qed.

Lemma field2 a b : 0 <= a < 100 -> 0 <= b < 100 ->
  String.compare (format_0 2 a) (format_0 2 b) = (a ?= b)
  /\ String.length (format_0 2 a) = 2%nat.
Proof. apply (field_order_spec 2 100 field2_ok). Qed.

Lemma field3 a b : 0 <= a < 1000 -> 0 <= b < 1000 ->
  String.compare (format_0 3 a) (format_0 3 b) = (a ?= b)
  /\ String.length (format_0 3 a) = 3%nat.
Proof. apply (field_order_spec 3 1000 field3_ok). Qed.

Lemma milliseconds_range x :
  0 <= x -> fits53 x -> 0 <= round_abs (x mod U * (1000 * U)) U / U < 1000.
Proof.
  intros Hx Hf. pose proof U_pos as HU.
  pose proof (Z.mod_pos_bound x U HU) as Hm.
  pose proof (milliseconds_bounds (x mod U) Hm (fits53_frac x Hx Hf)) as (Hlo & _ & Hhi).
  cbv zeta in Hlo, Hhi.
  assert (0 <= x mod U * 1000 / U) by (apply Z.div_pos; lia). lia.
Qed.

(** C9. For binary64 inputs [0 <= a <= b] of the same hour, that is with
    floor(a/3600) = floor(b/3600), the timestamp of [a] is lexicographically
    less than or equal to the timestamp of [b]. *)
Theorem sec_to_timestamp_monotone a b :
  binary64 a -> binary64 b -> 0 <= a -> a <= b ->
  a / (3600 * U) = b / (3600 * U) ->
  str_le (sec_to_timestamp a) (sec_to_timestamp b).
Proof.
  intros [Fa _] [Fb _] Ha Hab Hh. pose proof U_pos as HU.
  assert (Hb : 0 <= b) by lia.
  rewrite (sec_to_timestamp_nonneg a Ha Fa), (sec_to_timestamp_nonneg b Hb Fb).
  rewrite Hh. unfold str_le, String.leb.
  rewrite !compare_app_same.
  pose proof (minutes_range a Ha) as Rma. pose proof (minutes_range b Hb) as Rmb.
  pose proof (seconds_range a Ha) as Rsa. pose proof (seconds_range b Hb) as Rsb.
  pose proof (milliseconds_range a Ha Fa) as Ra. pose proof (milliseconds_range b Hb Fb) as Rb.
  assert (Hm : a / (60 * U) <= b / (60 * U)) by (apply Z.div_le_mono; lia).
  assert (Hs : a / U <= b / U) by (apply Z.div_le_mono; lia).
  pose proof (minutes_eq a) as Ema. pose proof (minutes_eq b) as Emb.
  pose proof (seconds_eq a) as Esa. pose proof (seconds_eq b) as Esb.
  set (ma := a mod (3600 * U) / (60 * U)) in *.
  set (mb := b mod (3600 * U) / (60 * U)) in *.
  set (sa := a mod (60 * U) / U) in *.
  set (sb := b mod (60 * U) / U) in *.
  set (fa := round_abs (a mod U * (1000 * U)) U / U) in *.
  set (fb := round_abs (b mod U * (1000 * U)) U / U) in *.
  destruct (field2 ma mb) as [Cm Lm]; [lia | lia |].
  destruct (field2 mb ma) as [_ Lm']; [lia | lia |].
  destruct (field2 sa sb) as [Cs Ls]; [lia | lia |].
  destruct (field2 sb sa) as [_ Ls']; [lia | lia |].
  destruct (field3 fa fb) as [Cf _]; [lia | lia |].
  rewrite compare_app_eqlen by congruence. rewrite Cm.
  destruct (Z.compare_spec ma mb) as [Em | Lt | Gt]; [| reflexivity | lia].
  rewrite compare_app_same.
  rewrite compare_app_eqlen by congruence. rewrite Cs.
  destruct (Z.compare_spec sa sb) as [Es | Lt | Gt]; [| reflexivity | lia].
  rewrite compare_app_same, Cf.
  assert (Hf : fa <= fb).
  { unfold fa, fb. apply Z.div_le_mono; [lia|].
    pose proof (Z.mod_pos_bound a U HU). pose proof (Z.mod_pos_bound b U HU).
    apply round_abs_mono; [lia|].
    assert (a mod U <= b mod U); [|nia].
    rewrite (Z.mod_eq a U), (Z.mod_eq b U) by lia. nia. }
  destruct (Z.compare_spec fa fb); [reflexivity | reflexivity | lia].
Qed.

Lemma length_app_str (s t : string) :
  String.length (s +:+ t) = (String.length s + String.length t)%nat.
Proof. induction s as [|c s IH]; simpl; [reflexivity | now rewrite IH]. Qed.

Lemma length_zeros n : String.length (zeros n) = n.
Proof. induction n as [|n IH]; simpl; [reflexivity | now rewrite IH]. Qed.

Lemma format_0_nonneg width z :
  0 <= z -> format_0 width z = zeros (width - String.length (str z)) +:+ str z.
Proof.
  intros Hz. unfold format_0.
  assert ((z <? 0) = false) as -> by (apply Z.ltb_ge; lia).
  rewrite Z.abs_eq by lia. simpl. now rewrite Nat.sub_0_r.
Qed.

Lemma format_0_length width z : 0 <= z -> (width <= String.length (format_0 width z))%nat.
Proof.
  intros Hz. rewrite format_0_nonneg by assumption.
  rewrite length_app_str, length_zeros. lia.
Qed.

(** C2, amended. For every binary64 [sec] with 0 <= sec < 2^53,
    [sec_to_timestamp] returns HH:MM:SS,mmm where hours = floor(sec/3600) on
    at least 2 digits, minutes = floor((sec mod 3600)/60) and seconds =
    floor(sec mod 60) on exactly 2 digits, and the milliseconds, on exactly 3
    digits, are the binary64 product (sec - floor(sec)) * 1000 truncated by
    [int], not rounded: the floor of the exact product, or one more when the
    product rounds up to an integer, and never more than 999. *)
Theorem sec_to_timestamp_fields sec :
  binary64 sec -> 0 <= sec -> sec < 2 ^ 53 * U ->
  let hours := sec / (3600 * U) in
  let minutes := sec mod (3600 * U) / (60 * U) in
  let seconds := sec mod (60 * U) / U in
  let milliseconds := int_of_float (float_mul (sec mod U) (float_of_int 1000)) in
  sec_to_timestamp sec
  = format_0 2 hours +:+ ":" +:+ format_0 2 minutes +:+ ":" +:+ format_0 2 seconds
      +:+ "," +:+ format_0 3 milliseconds
  /\ (2 <= String.length (format_0 2 hours))%nat
  /\ String.length (format_0 2 minutes) = 2%nat
  /\ String.length (format_0 2 seconds) = 2%nat
  /\ String.length (format_0 3 milliseconds) = 3%nat
  /\ sec mod U * 1000 / U <= milliseconds <= sec mod U * 1000 / U + 1
  /\ milliseconds <= 999.
Proof.
  intros [Hf _] H0 Hlt hours minutes seconds milliseconds.
  pose proof U_pos as HU.
  pose proof (Z.mod_pos_bound sec U HU) as Hm.
  assert (Hh0 : 0 <= hours) by (apply Z.div_pos; lia).
  assert (Hh : hours * 3600 < 2 ^ 53).
  { pose proof (Z.mul_div_le sec (3600 * U) ltac:(lia)) as Hle. fold hours in Hle. nia. }
  assert (Hms : milliseconds = round_abs (sec mod U * (1000 * U)) U / U).
  { unfold milliseconds. rewrite float_of_int_exact by (cbn; lia).
    unfold float_mul. rewrite rnd_nonneg by nia.
    apply int_of_float_nonneg.
    unfold round_abs. pose proof (ulp_of_pos (sec mod U * (1000 * U) / U)).
    apply Z.mul_nonneg_nonneg; [lia|]. apply rhe_ge; nia. }
  pose proof (milliseconds_bounds (sec mod U) Hm (fits53_frac sec H0 Hf)) as (Hlo & Hup & Hhi).
  cbv zeta in Hlo, Hup, Hhi. rewrite <- Hms in Hlo, Hup, Hhi.
  assert (0 <= sec mod U * 1000 / U) by (apply Z.div_pos; lia).
  pose proof (minutes_range sec H0) as Rm. fold minutes in Rm.
  pose proof (seconds_range sec H0) as Rs. fold seconds in Rs.
  split.
  - rewrite (sec_to_timestamp_nonneg sec H0 Hf). fold hours minutes seconds.
    rewrite <- Hms. do 2 f_equal.
    unfold float_floordiv.
    rewrite (float_divmod_nonneg (hours * (3600 * U)) 3600); [|nia | lia |].
    + cbn [fst]. rewrite Z.div_mul by lia.
      rewrite int_of_float_nonneg by nia. now rewrite Z.div_mul by lia.
    + rewrite Z.div_mul by lia. exact Hh.
  - repeat split; try lia.
    + apply format_0_length, Hh0.
    + apply (field2 minutes minutes); lia.
    + apply (field2 seconds seconds); lia.
    + apply (field3 milliseconds milliseconds); lia.
Qed.

(** ** The subtitle document *)

Lemma app_cons c (s t : string) : String c s +:+ t = String c (s +:+ t).
Proof. reflexivity. Qed.

Lemma app_nil_l_str (s : string) : "" +:+ s = s.
Proof. reflexivity. Qed.

Lemma app_nil_r_str (s : string) : s +:+ "" = s.
Proof. induction s as [|c s IH]; [reflexivity | now rewrite app_cons, IH]. Qed.

Lemma app_assoc_str (a b c : string) : (a +:+ b) +:+ c = a +:+ b +:+ c.
Proof. induction a as [|x a IH]; [reflexivity | now rewrite !app_cons, IH]. Qed.

Lemma set_fs_set_fs w m m' : set_fs (set_fs w m) m' = set_fs w m'.
Proof. reflexivity. Qed.

Lemma f_write_file key s w c :
  fs w !! key = Some (File c) ->
  f_write key s w = set_fs w (<[key := File (c +:+ s)]> (fs w)).
Proof. intros H. unfold f_write. now rewrite H. Qed.

Lemma f_write_set key s w c m :
  f_write key s (set_fs w (<[key := File c]> m))
  = set_fs w (<[key := File (c +:+ s)]> m).
Proof.
  unfold f_write. cbn [fs set_fs]. rewrite lookup_insert_eq.
  now rewrite set_fs_set_fs, insert_insert_eq.
Qed.

Lemma write_block_file key w c iseg :
  fs w !! key = Some (File c) ->
  write_block key w iseg = set_fs w (<[key := File (c +:+ srt_block iseg)]> (fs w)).
Proof.
  intros H. destruct iseg as [i seg]. unfold write_block, srt_block. cbn [fst snd].
  rewrite (f_write_file key _ w c H), !f_write_set.
  do 3 f_equal. rewrite !app_assoc_str. reflexivity.
Qed.

Lemma fold_write_blocks key l : forall w c,
  fs w !! key = Some (File c) ->
  fold_left (write_block key) l w
  = set_fs w (<[key := File (c +:+ concat_str (map srt_block l))]> (fs w)).
Proof.
  induction l as [|b l IH]; intros w c H; cbn [fold_left map concat_str].
  - rewrite app_nil_r_str. destruct w as [cw m t]. unfold set_fs; cbn in *.
    f_equal. symmetry. now apply insert_id.
  - rewrite (write_block_file key w c b H).
    rewrite (IH _ (c +:+ srt_block b)) by (cbn [fs set_fs]; apply lookup_insert_eq).
    cbn [fs set_fs]. rewrite set_fs_set_fs, insert_insert_eq, app_assoc_str. reflexivity.
Qed.

Lemma open_w_spec p w key w0 :
  open_w p w = Some (key, w0) ->
  key = abspath (cwd w) p /\ w0 = set_fs w (<[key := File ""]> (fs w)).
Proof.
  unfold open_w. intros H.
  destruct (fs w !! abspath (cwd w) p) as [[|c]|];
    try discriminate;
    match type of H with (if ?b then _ else _) = _ => destruct b end;
    inversion H; subst; auto.
Qed.

(** What [write_srt] leaves in the file it opened. *)
Lemma write_srt_document segments p w :
  write_srt segments p w
  = match open_w p w with
    | Some (key, _) =>
        Some (set_fs w (<[key := File (concat_str (map srt_block (enumerate segments 1)))]> (fs w)))
    | None => None
    end.
Proof.
  unfold write_srt. destruct (open_w p w) as [[key w0]|] eqn:Ho; [|reflexivity].
  apply open_w_spec in Ho as [_ ->].
  rewrite (fold_write_blocks key _ _ "") by (cbn [fs set_fs]; apply lookup_insert_eq).
  cbn [fs set_fs]. now rewrite set_fs_set_fs, insert_insert_eq.
Qed.

Lemma lstrip_spec s :
  exists l, s = l +:+ lstrip s /\ all_space l = true /\ starts_space (lstrip s) = false.
Proof.
  induction s as [|c s (l & E & Hl & Hs)]; cbn [lstrip].
  - exists "". auto.
  - destruct (is_space c) eqn:Hc.
    + exists (String c l). rewrite app_cons, <- E. cbn [all_space]. rewrite Hc, Hl. auto.
    + exists "". cbn [starts_space]. auto.
Qed.

Lemma rstrip_spec s :
  exists r, s = rstrip s +:+ r /\ all_space r = true /\ ends_space (rstrip s) = false.
Proof.
  induction s as [|c s (r & E & Hr & He)]; cbn [rstrip].
  - exists "". auto.
  - destruct (rstrip s) as [|d u] eqn:R.
    + destruct (is_space c) eqn:Hc.
      * exists (String c r). rewrite app_nil_l_str in *. subst s.
        cbn [all_space]. rewrite Hc, Hr. auto.
      * exists r. rewrite app_nil_l_str in E. subst s.
        cbn [ends_space]. rewrite Hc. auto.
    + exists r. rewrite app_cons, <- E. auto.
Qed.

Lemma rstrip_starts s : starts_space s = false -> starts_space (rstrip s) = false.
Proof.
  destruct s as [|c s]; cbn [rstrip starts_space]; [auto|].
  intros Hc. destruct (rstrip s); [rewrite Hc|]; cbn [starts_space]; auto.
Qed.

Lemma strip_spec s :
  exists l r, s = l +:+ strip s +:+ r /\ all_space l = true /\ all_space r = true
              /\ starts_space (strip s) = false /\ ends_space (strip s) = false.
Proof.
  destruct (lstrip_spec s) as (l & El & Hl & Hs).
  destruct (rstrip_spec (lstrip s)) as (r & Er & Hr & He).
  exists l, r. unfold strip. rewrite <- Er, <- El.
  repeat split; auto using rstrip_starts.
Qed.

Lemma enumerate_length {A} (l : list A) : forall k, length (enumerate l k) = length l.
Proof. induction l as [|x l IH]; intros k; cbn; [reflexivity | now rewrite IH]. Qed.

Lemma enumerate_lookup {A} (l : list A) : forall k (i : nat),
  enumerate l k !! i = (fun x => (k + Z.of_nat i, x)) <$> l !! i.
Proof.
  induction l as [|x l IH]; intros k i; [now destruct i|].
  destruct i as [|i]; cbn [enumerate].
  - cbn. now rewrite Z.add_0_r.
  - change ((x :: l) !! S i) with (l !! i).
    change (((k, x) :: enumerate l (k + 1)) !! S i) with (enumerate l (k + 1) !! i).
    rewrite IH. destruct (l !! i); cbn; [|reflexivity]. do 2 f_equal. lia.
Qed.

Lemma enumerate_app {A} (l1 l2 : list A) : forall k,
  enumerate (l1 ++ l2)%list k = (enumerate l1 k ++ enumerate l2 (k + Z.of_nat (length l1)))%list.
Proof.
  induction l1 as [|x l1 IH]; intros k; cbn [enumerate app length].
  - now rewrite Z.add_0_r.
  - rewrite IH. do 3 f_equal. lia.
Qed.

Lemma concat_str_app l1 l2 : concat_str (l1 ++ l2)%list = concat_str l1 +:+ concat_str l2.
Proof.
  induction l1 as [|x l1 IH]; cbn [concat_str app]; [reflexivity|].
  now rewrite IH, app_assoc_str.
Qed.

Lemma hi_segment_document :
  concat_str (map srt_block (enumerate [hi_segment] 1)) = hi_document.
Proof. vm_compute. reflexivity. Qed.

(** C4. Once the file is open, each segment contributes to the document,
    at its 1-based position, the index line, the line
    [start --> end] of the two timestamps, the text without its leading and
    trailing whitespace, and a blank line; the single segment from 0.0 to
    1.5 with text "hi" gives exactly [hi_document]. *)
Theorem write_srt_block_format segments seg p w key w0 :
  open_w p w = Some (key, w0) ->
  (exists doc w1 w2,
     write_srt segments p w = Some w1 /\ fs w1 !! key = Some (File doc)
     /\ write_srt (segments ++ [seg])%list p w = Some w2
     /\ fs w2 !! key
        = Some (File (doc
                      +:+ str (Z.of_nat (length segments) + 1) +:+ nl
                      +:+ sec_to_timestamp (seg_start seg) +:+ " --> "
                      +:+ sec_to_timestamp (seg_end seg) +:+ nl
                      +:+ strip (seg_text seg) +:+ nl +:+ nl)))
  /\ (exists l r,
        seg_text seg = l +:+ strip (seg_text seg) +:+ r
        /\ all_space l = true /\ all_space r = true
        /\ starts_space (strip (seg_text seg)) = false
        /\ ends_space (strip (seg_text seg)) = false)
  /\ (exists w1,
        write_srt [hi_segment] p w = Some w1
        /\ fs w1 !! key = Some (File hi_document)).
Proof.
  intros Ho. rewrite !write_srt_document, Ho. repeat split.
  - eexists _, _, _. split; [reflexivity|]. cbn [fs set_fs].
    split; [apply lookup_insert_eq|]. split; [reflexivity|].
    cbn [fs set_fs]. rewrite lookup_insert_eq. do 2 f_equal.
    rewrite enumerate_app, map_app, concat_str_app. cbn [enumerate map concat_str].
    unfold srt_block. cbn [fst snd]. rewrite app_nil_r_str.
    rewrite (Z.add_comm 1). reflexivity.
  - apply strip_spec.
  - eexists. split; [reflexivity|]. cbn [fs set_fs].
    rewrite lookup_insert_eq, hi_segment_document. reflexivity.
Qed.

Lemma write_srt_block_format_witness :
  exists w1, write_srt [hi_segment] ex_srt_path ex_world = Some w1
             /\ fs w1 !! ex_srt_path = Some (File hi_document).
Proof.
  refine (proj2 (proj2 (write_srt_block_format [] hi_segment ex_srt_path ex_world
                          ex_srt_path _ _))).
  vm_compute. reflexivity.
Defined.

(** C7. Whatever the order of the segments and whether or not an end is
    before its start, the document is made of as many blocks as there are
    segments; the block at position [i] carries the index [i + 1] and the
    timestamps and text of the [i]-th segment of the input, unchanged. *)
Theorem write_srt_passthrough (segments : list Segment) p w key w0 :
  open_w p w = Some (key, w0) ->
  exists (blocks : list string) w1,
    write_srt segments p w = Some w1
    /\ fs w1 !! key = Some (File (concat_str blocks))
    /\ length blocks = length segments
    /\ forall (i : nat) seg, segments !! i = Some seg ->
         blocks !! i
         = Some (str (Z.of_nat i + 1) +:+ nl
                 +:+ sec_to_timestamp (seg_start seg) +:+ " --> "
                 +:+ sec_to_timestamp (seg_end seg) +:+ nl
                 +:+ strip (seg_text seg) +:+ nl +:+ nl).
Proof.
  intros Ho. rewrite write_srt_document, Ho.
  eexists _, _. split; [reflexivity|]. cbn [fs set_fs].
  split; [apply lookup_insert_eq|]. split.
  - now rewrite length_map, enumerate_length.
  - intros i seg Hi. rewrite list_lookup_fmap, enumerate_lookup, Hi. cbn.
    unfold srt_block. cbn [fst snd]. rewrite (Z.add_comm 1). reflexivity.
Qed.

Lemma write_srt_passthrough_witness :
  exists (blocks : list string) w1,
    write_srt out_of_order_segments ex_srt_path ex_world = Some w1
    /\ fs w1 !! ex_srt_path = Some (File (concat_str blocks))
    /\ length blocks = length out_of_order_segments
    /\ forall (i : nat) seg, out_of_order_segments !! i = Some seg ->
         blocks !! i
         = Some (str (Z.of_nat i + 1) +:+ nl
                 +:+ sec_to_timestamp (seg_start seg) +:+ " --> "
                 +:+ sec_to_timestamp (seg_end seg) +:+ nl
                 +:+ strip (seg_text seg) +:+ nl +:+ nl).
Proof.
  refine (write_srt_passthrough out_of_order_segments ex_srt_path ex_world ex_srt_path _ _).
  vm_compute. reflexivity.
Defined.

(** C8. Writing the empty list of segments succeeds once the file is open
    and leaves an empty document. *)
Theorem write_srt_empty p w key w0 :
  open_w p w = Some (key, w0) ->
  exists w1, write_srt [] p w = Some w1 /\ fs w1 !! key = Some (File "").
Proof.
  intros Ho. rewrite write_srt_document, Ho. eexists. split; [reflexivity|].
  cbn [fs set_fs enumerate map concat_str]. apply lookup_insert_eq.
Qed.

Lemma write_srt_empty_witness :
  exists w1, write_srt [] ex_srt_path ex_world = Some w1
             /\ fs w1 !! ex_srt_path = Some (File "").
Proof.
  refine (write_srt_empty ex_srt_path ex_world ex_srt_path _ _).
  vm_compute. reflexivity.
Defined.


(** ** Decimal fields and path components *)

Lemma app_inv_tail_str (a b c : string) : a +:+ c = b +:+ c -> a = b.
Proof.
  revert b. induction a as [|x a IH]; intros [|y b] H.
  - reflexivity.
  - apply (f_equal String.length) in H. rewrite !length_app_str in H. cbn in H. lia.
  - apply (f_equal String.length) in H. rewrite !length_app_str in H. cbn in H. lia.
  - rewrite !app_cons in H. injection H as -> H. f_equal. auto.
Qed.

Lemma no_slash_app a b : no_slash (a +:+ b) = no_slash a && no_slash b.
Proof.
  induction a as [|x a IH]; [reflexivity|].
  rewrite app_cons. cbn [no_slash]. rewrite IH. now rewrite andb_assoc.
Qed.

Lemma no_slash_digits d : no_slash (NilEmpty.string_of_uint d) = true.
Proof. induction d; cbn [NilEmpty.string_of_uint no_slash]; rewrite ?IHd; reflexivity. Qed.

Lemma no_slash_zeros n : no_slash (zeros n) = true.
Proof. induction n; cbn [zeros no_slash]; rewrite ?IHn; reflexivity. Qed.

Lemma str_nonneg z :
  0 <= z -> exists d, str z = NilEmpty.string_of_uint d /\ Z.of_uint d = z.
Proof.
  intros Hz. destruct z as [|p|p]; [| |lia].
  - exists (Decimal.D0 Decimal.Nil). split; reflexivity.
  - exists (Pos.to_uint p). split.
    + unfold str. cbn [Z.to_int NilZero.string_of_int NilZero.string_of_uint].
      pose proof (Unsigned.to_uint_nonnil p). now destruct (Pos.to_uint p).
    + unfold Z.of_uint. now rewrite Unsigned.of_to.
Qed.

Lemma decode_str z : 0 <= z -> decode_decimal (str z) = Some z.
Proof.
  intros Hz. destruct (str_nonneg z Hz) as (d & -> & <-).
  unfold decode_decimal. now rewrite NilEmpty.usu.
Qed.

Lemma decode_zeros n s : decode_decimal (zeros n +:+ s) = decode_decimal s.
Proof.
  induction n as [|n IH]; [reflexivity|].
  cbn [zeros]. rewrite app_cons, <- IH. unfold decode_decimal.
  cbn [NilEmpty.uint_of_string].
  destruct (NilEmpty.uint_of_string (zeros n +:+ s)) as [d|]; reflexivity.
Qed.

Lemma decode_format_0 width z : 0 <= z -> decode_decimal (format_0 width z) = Some z.
Proof. intros Hz. now rewrite format_0_nonneg, decode_zeros, decode_str. Qed.

Lemma format_0_inj width a b :
  0 <= a -> 0 <= b -> format_0 width a = format_0 width b -> a = b.
Proof.
  intros Ha Hb E. apply (f_equal decode_decimal) in E.
  rewrite !decode_format_0 in E by assumption. congruence.
Qed.

Lemma no_slash_format_0 width z : 0 <= z -> no_slash (format_0 width z) = true.
Proof.
  intros Hz. rewrite format_0_nonneg by assumption.
  destruct (str_nonneg z Hz) as (d & -> & _).
  now rewrite no_slash_app, no_slash_zeros, no_slash_digits.
Qed.

(** *** The last component of a normalised path *)

Lemma prefix_slash c s : String.prefix "/" (String c s) = Ascii.eqb "/" c.
Proof.
  cbn [String.prefix]. destruct (ascii_dec "/" c) as [<- | Hne].
  - rewrite Ascii.eqb_refl. now destruct s.
  - symmetry. now apply Ascii.eqb_neq.
Qed.

Lemma split_go_plain C : forall cur,
  no_slash C = true -> split_go "/" 0 cur C = [cur +:+ C].
Proof.
  induction C as [|c C IH]; intros cur H.
  - cbn [split_go]. now rewrite app_nil_r_str.
  - cbn [no_slash] in H. apply andb_prop in H as [Hc HC].
    cbn [split_go]. rewrite prefix_slash.
    destruct (Ascii.eqb "/" c); [discriminate|].
    rewrite IH by assumption. rewrite app_assoc_str. reflexivity.
Qed.

Lemma split_go_dir s : forall cur C,
  no_slash C = true ->
  exists init, split_go "/" 0 cur (s +:+ "/" +:+ C) = (init ++ [C])%list.
Proof.
  induction s as [|c s IH]; intros cur C H.
  - change ("" +:+ "/" +:+ C) with (String "/" C).
    cbn [split_go]. rewrite prefix_slash. cbn [Ascii.eqb Bool.eqb String.length Nat.sub].
    rewrite split_go_plain by assumption. exists [cur]. reflexivity.
  - rewrite app_cons. cbn [split_go]. rewrite prefix_slash.
    destruct (Ascii.eqb "/" c).
    + destruct (IH "" C H) as [init E]. cbn [String.length Nat.sub]. rewrite E.
      exists (cur :: init). reflexivity.
    + apply IH, H.
Qed.

Lemma split_last D C :
  dir_part D -> no_slash C = true ->
  exists init, split "/" (D +:+ C) = (init ++ [C])%list.
Proof.
  intros [-> | [s ->]] H; unfold split.
  - exists []. now rewrite split_go_plain.
  - rewrite app_assoc_str. apply split_go_dir, H.
Qed.

Lemma norm_comps_app i l1 : forall st l2,
  norm_comps i st (l1 ++ l2)%list = norm_comps i (norm_comps i st l1) l2.
Proof.
  induction l1 as [|c l1 IH]; intros st l2; [reflexivity|].
  cbn [app norm_comps].
  destruct (String.eqb c "" || String.eqb c "."); [apply IH|].
  match goal with |- (if ?b then _ else _) = _ => destruct b end; apply IH.
Qed.

Lemma norm_comps_plain i st C :
  plain_comp C -> norm_comps i st [C] = C :: st.
Proof.
  intros (_ & H1 & H2 & H3). cbn [norm_comps].
  apply String.eqb_neq in H1, H2, H3. now rewrite H1, H2, H3.
Qed.

Lemma join_snoc l : forall C,
  exists pre, PyStr.join "/" (l ++ [C])%list = pre +:+ C /\ dir_part pre.
Proof.
  induction l as [|x l IH]; intros C.
  - exists "". split; [reflexivity | now left].
  - destruct (IH C) as (pre & E & Hp).
    exists (x +:+ "/" +:+ pre). split.
    + cbn [app]. destruct (l ++ [C])%list as [|y l'] eqn:El.
      { now destruct l. }
      change (PyStr.join "/" (x :: y :: l')) with (x +:+ "/" +:+ PyStr.join "/" (y :: l')).
      rewrite E, !app_assoc_str. reflexivity.
    + right. destruct Hp as [-> | [s ->]].
      * exists x. now rewrite app_nil_r_str.
      * exists (x +:+ "/" +:+ s). now rewrite !app_assoc_str.
Qed.

Lemma dir_part_app a b : dir_part a -> dir_part b -> dir_part (a +:+ b).
Proof.
  intros Ha [-> | [s ->]].
  - now rewrite app_nil_r_str.
  - right. exists (a +:+ s). now rewrite app_assoc_str.
Qed.

Lemma plain_comp_nonempty D C : plain_comp C -> D +:+ C <> "".
Proof.
  intros (_ & H & _) E. apply (f_equal String.length) in E.
  rewrite length_app_str in E. destruct C; [congruence | cbn in E; lia].
Qed.

Lemma normpath_last D C :
  dir_part D -> plain_comp C ->
  exists pre, normpath (D +:+ C) = pre +:+ C /\ dir_part pre.
Proof.
  intros HD HC. unfold normpath.
  pose proof (plain_comp_nonempty D C HC) as Hne.
  apply String.eqb_neq in Hne. rewrite Hne.
  destruct (split_last D C HD (proj1 HC)) as [init ->].
  rewrite norm_comps_app, norm_comps_plain by assumption.
  cbn [List.rev]. change (rev ?l) with (List.rev l).
  destruct (join_snoc (List.rev (norm_comps (initial_slashes_of (D +:+ C)) [] init)) C)
    as (pre & -> & Hp).
  set (sl := initial_slashes_of (D +:+ C)).
  assert (exists pre', match sl with
                       | O => pre +:+ C
                       | 1%nat => "/" +:+ pre +:+ C
                       | _ => "//" +:+ pre +:+ C
                       end = pre' +:+ C /\ dir_part pre') as (pre' & -> & Hp').
  { destruct sl as [|[|n]].
    - exists pre. auto.
    - exists ("/" +:+ pre). split; [now rewrite app_assoc_str|].
      apply dir_part_app; [right; now exists "" | assumption].
    - exists ("//" +:+ pre). split; [now rewrite app_assoc_str|].
      apply dir_part_app; [right; now exists "/" | assumption]. }
  pose proof (plain_comp_nonempty pre' C HC) as Hne'.
  apply String.eqb_neq in Hne'. rewrite Hne'. eauto.
Qed.

Lemma last_comp_app pre C :
  dir_part pre -> no_slash C = true -> last_comp (pre +:+ C) = C.
Proof.
  intros Hp HC. unfold last_comp, last_piece.
  destruct (split_last pre C Hp HC) as [init ->]. apply List.last_last.
Qed.

Lemma ends_with_char_spec a : ends_with_char "/" a = true -> exists s, a = s +:+ "/".
Proof.
  induction a as [|c a IH]; cbn [ends_with_char]; [discriminate|].
  destruct a as [|d a].
  - intros H. apply Ascii.eqb_eq in H as <-. now exists "".
  - intros H. destruct (IH H) as [s E]. exists (String c s). now rewrite app_cons, <- E.
Qed.

Lemma abspath_last cwd D C :
  dir_part D -> plain_comp C -> last_comp (abspath cwd (D +:+ C)) = C.
Proof.
  intros HD HC. unfold abspath.
  assert (exists pre, (if starts_with "/" (D +:+ C) then D +:+ C else join cwd (D +:+ C))
                      = pre +:+ C /\ dir_part pre) as (pre & -> & Hp).
  { destruct (starts_with "/" (D +:+ C)) eqn:Hs; [eauto|].
    unfold join. rewrite Hs.
    destruct (String.eqb cwd "" || ends_with_char "/" cwd) eqn:Hc.
    - exists (cwd +:+ D). split; [now rewrite app_assoc_str|].
      apply dir_part_app; [|assumption].
      apply orb_prop in Hc as [Hc | Hc].
      + left. now apply String.eqb_eq.
      + right. now apply ends_with_char_spec.
    - exists (cwd +:+ "/" +:+ D). split; [now rewrite !app_assoc_str|].
      rewrite <- app_assoc_str. apply dir_part_app; [right; eauto | assumption]. }
  destruct (normpath_last pre C Hp HC) as (pre' & -> & Hp').
  apply last_comp_app; [assumption | apply HC].
Qed.

Lemma split_dir B : exists D L, B = D +:+ L /\ dir_part D /\ no_slash L = true.
Proof.
  induction B as [|c B (D & L & -> & HD & HL)].
  - exists "", "". repeat split. now left.
  - destruct HD as [-> | [s ->]].
    + destruct (Ascii.eqb "/" c) eqn:Hc.
      * apply Ascii.eqb_eq in Hc as <-. exists "/", L.
        split; [reflexivity|]. split; [right; now exists ""|assumption].
      * exists "", (String c L).
        split; [reflexivity|]. split; [now left|].
        cbn [no_slash]. now rewrite Hc, HL.
    + exists (String c s +:+ "/"), L.
      split; [reflexivity|]. split; [right; eauto|assumption].
Qed.

Lemma srt_candidate_suffix base model k :
  srt_candidate base model k = (base +:+ "_" +:+ model) +:+ srt_suffix k.
Proof.
  destruct k as [|j]; unfold srt_candidate, numbered_srt_path, srt_suffix;
    now rewrite !app_assoc_str.
Qed.

Lemma srt_suffix_inj i j : srt_suffix i = srt_suffix j -> i = j.
Proof.
  destruct i as [|i], j as [|j]; unfold srt_suffix; intros H;
    try reflexivity; try discriminate.
  apply String.app_inj, app_inv_tail_str, format_0_inj in H; lia.
Qed.

Lemma srt_suffix_plain L k : no_slash L = true -> plain_comp (L +:+ srt_suffix k).
Proof.
  intros HL.
  assert (no_slash (srt_suffix k) = true) as Hs.
  { destruct k as [|j]; [reflexivity|]. unfold srt_suffix.
    rewrite !no_slash_app, no_slash_format_0 by lia. reflexivity. }
  assert (4 <= String.length (L +:+ srt_suffix k))%nat as Hlen.
  { rewrite length_app_str. destruct k as [|j]; unfold srt_suffix; [cbn; lia|].
    rewrite !length_app_str. cbn. lia. }
  split; [now rewrite no_slash_app, HL, Hs|].
  repeat split; intros E; rewrite E in Hlen; cbn in Hlen; lia.
Qed.

Lemma srt_candidate_key_inj cwd base model i j :
  abspath cwd (srt_candidate base model i) = abspath cwd (srt_candidate base model j) ->
  i = j.
Proof.
  rewrite !srt_candidate_suffix.
  destruct (split_dir (base +:+ "_" +:+ model)) as (D & L & -> & HD & HL).
  rewrite !app_assoc_str. intros E. apply (f_equal last_comp) in E.
  rewrite !abspath_last in E by auto using srt_suffix_plain.
  now apply String.app_inj, srt_suffix_inj in E.
Qed.

(** ** The subtitle path *)

Lemma free_srt_path_step fuel w b m k :
  free_srt_path (S fuel) w b m (srt_candidate b m k) (Z.of_nat k + 2)
  = if path_exists w (srt_candidate b m k)
    then free_srt_path fuel w b m (srt_candidate b m (S k)) (Z.of_nat (S k) + 2)
    else Some (srt_candidate b m k).
Proof.
  cbn [free_srt_path srt_candidate].
  replace (Z.of_nat k + 2 + 1) with (Z.of_nat (S k) + 2) by lia. reflexivity.
Qed.

Lemma free_srt_path_Some fuel w b m : forall k r,
  free_srt_path fuel w b m (srt_candidate b m k) (Z.of_nat k + 2) = Some r ->
  exists j, (k <= j < k + fuel)%nat /\ r = srt_candidate b m j
            /\ path_exists w r = false
            /\ forall i, (k <= i < j)%nat -> path_exists w (srt_candidate b m i) = true.
Proof.
  induction fuel as [|fuel IH]; intros k r H; [discriminate|].
  rewrite free_srt_path_step in H.
  destruct (path_exists w (srt_candidate b m k)) eqn:Hk.
  - destruct (IH _ _ H) as (j & Hj & -> & Hf & Hall).
    exists j. repeat split; [lia | lia | assumption |].
    intros i Hi. destruct (Nat.eq_dec i k) as [-> | Hne]; [assumption | apply Hall; lia].
  - injection H as <-. exists k. repeat split; [lia | lia | assumption |]. intros; lia.
Qed.

Lemma free_srt_path_None fuel w b m : forall k,
  free_srt_path fuel w b m (srt_candidate b m k) (Z.of_nat k + 2) = None ->
  forall i, (k <= i < k + fuel)%nat -> path_exists w (srt_candidate b m i) = true.
Proof.
  induction fuel as [|fuel IH]; intros k H i Hi; [lia|].
  rewrite free_srt_path_step in H.
  destruct (path_exists w (srt_candidate b m k)) eqn:Hk; [|discriminate].
  destruct (Nat.eq_dec i k) as [-> | Hne]; [assumption|].
  apply (IH (S k) H). lia.
Qed.

Lemma free_srt_path_more fuel w b m : forall k r fuel',
  free_srt_path fuel w b m (srt_candidate b m k) (Z.of_nat k + 2) = Some r ->
  (fuel <= fuel')%nat ->
  free_srt_path fuel' w b m (srt_candidate b m k) (Z.of_nat k + 2) = Some r.
Proof.
  induction fuel as [|fuel IH]; intros k r fuel' H Hle; [discriminate|].
  destruct fuel' as [|fuel']; [lia|].
  rewrite free_srt_path_step in *.
  destruct (path_exists w (srt_candidate b m k)); [|assumption].
  apply IH; [assumption | lia].
Qed.

Lemma candidate_key_inj cw b m :
  Inj (=) (=) (fun i : nat => abspath cw (srt_candidate b m i)).
Proof. intros i j. apply srt_candidate_key_inj. Qed.

(** Only as many of the tested paths exist as the file system has entries. *)
Lemma existing_candidates_bound w b m n :
  (forall i, (i < n)%nat -> path_exists w (srt_candidate b m i) = true) ->
  (n <= size (fs w))%nat.
Proof.
  intros Hall.
  set (keys := (fun i : nat => abspath (cwd w) (srt_candidate b m i)) <$> seq 0 n).
  assert (NoDup keys) as Hnd.
  { pose proof (candidate_key_inj (cwd w) b m) as Hinj.
    apply (NoDup_fmap_2 _), NoDup_seq. }
  assert (list_to_set keys ⊆ dom (fs w)) as Hsub.
  { intros key Hkey. apply elem_of_list_to_set in Hkey.
    apply list_elem_of_fmap in Hkey as (i & -> & Hi).
    apply elem_of_seq in Hi. apply elem_of_dom.
    specialize (Hall i ltac:(lia)). unfold path_exists in Hall.
    destruct (fs w !! abspath (cwd w) (srt_candidate b m i)); [eauto | discriminate]. }
  apply subseteq_size in Hsub.
  rewrite size_list_to_set, size_dom in Hsub by assumption.
  unfold keys in Hsub. rewrite length_fmap, length_seq in Hsub. exact Hsub.
Qed.

Lemma resolve_srt_path_candidate audio model w :
  resolve_srt_path audio model w
  = free_srt_path (S (size (fs w))) w (fst (splitext audio)) (lower model)
      (srt_candidate (fst (splitext audio)) (lower model) 0) (Z.of_nat 0 + 2).
Proof. reflexivity. Qed.

(** C3. The loop of lines 99 to 109 ends, within the fuel given and with
    any larger fuel, on a path that does not exist: the base path
    [base_model.srt] when it is free, otherwise the path with the least
    counter from 2 on, written on two digits, whose path is free, so [_02]
    when only the base path exists and [_03] when the base path and [_02]
    exist. *)
Theorem resolve_srt_path_free audio_file model_size w :
  let base_name := fst (splitext audio_file) in
  let model_short_name := lower model_size in
  let srt_base_path := base_name +:+ "_" +:+ model_short_name +:+ ".srt" in
  let numbered counter :=
    base_name +:+ "_" +:+ model_short_name +:+ "_" +:+ format_0 2 counter +:+ ".srt" in
  exists srt_path,
    resolve_srt_path audio_file model_size w = Some srt_path
    /\ (forall fuel, (size (fs w) < fuel)%nat ->
          free_srt_path fuel w base_name model_short_name srt_base_path 2 = Some srt_path)
    /\ path_exists w srt_path = false
    /\ (path_exists w srt_base_path = false -> srt_path = srt_base_path)
    /\ (path_exists w srt_base_path = true ->
          exists counter, 2 <= counter /\ srt_path = numbered counter
            /\ forall c, 2 <= c < counter -> path_exists w (numbered c) = true)
    /\ (path_exists w srt_base_path = true -> path_exists w (numbered 2) = false ->
          srt_path = base_name +:+ "_" +:+ model_short_name +:+ "_02.srt")
    /\ (path_exists w srt_base_path = true -> path_exists w (numbered 2) = true ->
          path_exists w (numbered 3) = false ->
          srt_path = base_name +:+ "_" +:+ model_short_name +:+ "_03.srt").
Proof.
  intros b m base numbered.
  assert (Hc0 : srt_candidate b m 0 = base) by reflexivity.
  assert (HcS : forall j, srt_candidate b m (S j) = numbered (Z.of_nat j + 2)) by reflexivity.
  rewrite resolve_srt_path_candidate. fold b m.
  destruct (free_srt_path (S (size (fs w))) w b m (srt_candidate b m 0) (Z.of_nat 0 + 2))
    as [r|] eqn:E.
  2:{ pose proof (existing_candidates_bound w b m (S (size (fs w)))
                    (fun i Hi => free_srt_path_None _ w b m 0%nat E i ltac:(lia))). lia. }
  exists r. split; [reflexivity|].
  split.
  { intros fuel Hf. rewrite <- Hc0. change 2 with (Z.of_nat 0 + 2).
    apply (free_srt_path_more _ _ _ _ _ _ _ E). lia. }
  destruct (free_srt_path_Some _ _ _ _ _ _ E) as (j & Hj & -> & Hfree & Hall).
  split; [assumption|].
  assert (Hn2 : numbered 2 = b +:+ "_" +:+ m +:+ "_02.srt") by reflexivity.
  assert (Hn3 : numbered 3 = b +:+ "_" +:+ m +:+ "_03.srt") by reflexivity.
  repeat split.
  - intros Hb. destruct j as [|j]; [assumption|].
    rewrite <- Hc0, Hall in Hb by lia. discriminate.
  - intros Hb. destruct j as [|j]; [rewrite Hc0 in Hfree; congruence|].
    exists (Z.of_nat j + 2). split; [lia|]. split; [apply HcS|].
    intros c Hc. specialize (Hall (S (Z.to_nat (c - 2))) ltac:(lia)).
    rewrite HcS in Hall. now replace (Z.of_nat (Z.to_nat (c - 2)) + 2) with c in Hall by lia.
  - intros Hb H2. rewrite <- Hn2.
    destruct j as [|[|j]]; [rewrite Hc0 in Hfree; congruence | reflexivity |].
    specialize (Hall 1%nat ltac:(lia)). rewrite HcS in Hall.
    change (Z.of_nat 0 + 2) with 2 in Hall. congruence.
  - intros Hb H2 H3. rewrite <- Hn3.
    destruct j as [|[|[|j]]]; [rewrite Hc0 in Hfree; congruence | | reflexivity |].
    + rewrite HcS in Hfree. change (Z.of_nat 0 + 2) with 2 in Hfree. congruence.
    + specialize (Hall 2%nat ltac:(lia)). rewrite HcS in Hall.
      change (Z.of_nat 1 + 2) with 3 in Hall. congruence.
Qed.

(** ** Acquisition and orchestration *)

Lemma download_result yt_dlp url format w p w' :
  download_youtube_audio yt_dlp url format w = (Some p, w') ->
  url <> ""
  /\ p = abspath (abspath (cwd w) (join (cwd w) "whisper_workspace"))
           ("youtube_" +:+ take 11 (last_piece (split "watch?v=" url)) +:+ "." +:+ format).
Proof.
  unfold download_youtube_audio.
  destruct (String.eqb_spec url "") as [-> | Hne]; [discriminate|].
  unfold makedirs, chdir, subprocess_run.
  set (ws := abspath (cwd w) (join (cwd w) "whisper_workspace")).
  set (expected := "youtube_" +:+ take 11 (last_piece (split "watch?v=" url)) +:+ "." +:+ format).
  intros H. split; [assumption|].
  destruct (fs w !! ws) as [[|c]|] eqn:Hws; try discriminate.
  - cbn [cwd fs] in H. fold ws in H. rewrite Hws in H.
    match type of H with context [path_exists ?w0 expected] =>
      destruct (path_exists w0 expected) end.
    + now injection H as <- _.
    + match type of H with context [yt_dlp ?c ?w0] => destruct (yt_dlp c w0) as [[|] m] end;
        [|discriminate].
      match type of H with context [path_exists ?w0 expected] =>
        destruct (path_exists w0 expected) end; [|discriminate].
      now injection H as <- _.
  - cbn [cwd fs set_fs] in H. fold ws in H. rewrite lookup_insert_eq in H.
    match type of H with context [path_exists ?w0 expected] =>
      destruct (path_exists w0 expected) end.
    + now injection H as <- _.
    + match type of H with context [yt_dlp ?c ?w0] => destruct (yt_dlp c w0) as [[|] m] end;
        [|discriminate].
      match type of H with context [path_exists ?w0 expected] =>
        destruct (path_exists w0 expected) end; [|discriminate].
      now injection H as <- _.
Qed.

(** C1, amended. When a call of [download_youtube_audio] has returned a
    path, a later call for the same URL and format that starts from the
    same current directory, with the workspace directory and that file
    still there, returns the same path, calls yt-dlp no more and leaves the
    file system as it is. *)
Theorem download_cache_hit yt_dlp url format w1 w1' w2 p :
  download_youtube_audio yt_dlp url format w1 = (Some p, w1') ->
  cwd w2 = cwd w1 ->
  fs w2 !! abspath (cwd w1) (join (cwd w1) "whisper_workspace") = Some Dir ->
  is_Some (fs w2 !! p) ->
  exists w2',
    download_youtube_audio yt_dlp url format w2 = (Some p, w2')
    /\ trace w2' = trace w2 /\ fs w2' = fs w2.
Proof.
  intros H1 Hcwd Hws [n Hp].
  apply download_result in H1 as [Hne ->].
  unfold download_youtube_audio.
  apply String.eqb_neq in Hne. rewrite Hne.
  unfold makedirs, chdir. rewrite Hcwd, Hws. cbn [cwd fs]. rewrite ?Hcwd, ?Hws.
  unfold path_exists. cbn [cwd fs]. rewrite Hp.
  eexists. split; [reflexivity|]. split; reflexivity.
Qed.

Lemma download_cache_hit_witness :
  exists w2',
    download_youtube_audio yt_dlp_ok ex_url "mp3"
      (restart "/home/user" (snd (download_youtube_audio yt_dlp_ok ex_url "mp3" ex_home)))
    = (Some "/home/user/whisper_workspace/youtube_abc12345678.mp3", w2')
    /\ trace w2' = [EvDownload
         "yt-dlp --hls-use-mpegts --force-overwrites -x --audio-format mp3 -o 'youtube_abc12345678.%(ext)s' 'https://www.youtube.com/watch?v=abc12345678'"].
Proof.
  destruct (download_cache_hit yt_dlp_ok ex_url "mp3" ex_home
              (snd (download_youtube_audio yt_dlp_ok ex_url "mp3" ex_home))
              (restart "/home/user" (snd (download_youtube_audio yt_dlp_ok ex_url "mp3" ex_home)))
              "/home/user/whisper_workspace/youtube_abc12345678.mp3")
    as (w2' & E & Ht & _).
  - vm_compute. reflexivity.
  - reflexivity.
  - vm_compute. reflexivity.
  - exists (File "audio"). vm_compute. reflexivity.
  - exists w2'. split; [exact E|]. rewrite Ht. vm_compute. reflexivity.
Defined.

(** C1 as stated fails: a second call in the same process starts in
    [whisper_workspace], where the first call has moved, looks for the file
    in a nested workspace, downloads again and returns another path. *)
Lemma download_twice_counterexample :
  let first := download_youtube_audio yt_dlp_ok ex_url "mp3" ex_home in
  let second := download_youtube_audio yt_dlp_ok ex_url "mp3" (snd first) in
  fst first = Some "/home/user/whisper_workspace/youtube_abc12345678.mp3"
  /\ fst second
     = Some "/home/user/whisper_workspace/whisper_workspace/youtube_abc12345678.mp3"
  /\ fst first <> fst second
  /\ length (trace (snd first)) = 1%nat
  /\ length (trace (snd second)) = 2%nat
  /\ is_Some (fs (snd second) !! "/home/user/whisper_workspace/youtube_abc12345678.mp3").
Proof.
  cbv zeta. repeat split; try (vm_compute; reflexivity).
  - vm_compute. discriminate.
  - exists (File "audio"). vm_compute. reflexivity.
Qed.

(** C2 as stated fails at 2^-10 = 0.0009765625 seconds: the code gives 0
    milliseconds where rounding 0.9765625 gives 1. *)
Lemma sec_to_timestamp_counterexample :
  let sec := 2 ^ 1064 in
  binary64 sec /\ 0 <= sec
  /\ sec_to_timestamp sec = "00:00:00,000"
  /\ spec_milliseconds sec = 1
  /\ spec_encode sec = "00:00:00,001"
  /\ sec_to_timestamp sec <> spec_encode sec.
Proof.
  cbv zeta. repeat split; try (vm_compute; reflexivity); try (vm_compute; discriminate).
Qed.

(** Beyond 2^53 seconds the hour field is not the exact quotient. *)
Lemma sec_to_timestamp_hours_large :
  let sec := (2 ^ 70 + 2 ^ 18) * U in
  binary64 sec
  /\ int_of_float (float_floordiv sec (float_of_int 3600)) <> sec / (3600 * U).
Proof.
  cbv zeta. repeat split; try (vm_compute; reflexivity); try (vm_compute; discriminate).
Qed.

Lemma sec_to_timestamp_fields_witness :
  sec_to_timestamp (decimal 36615 10) = "01:01:01,500".
Proof.
  destruct (sec_to_timestamp_fields (decimal 36615 10)) as [E _].
  - split; vm_compute; reflexivity.
  - vm_compute. discriminate.
  - vm_compute. reflexivity.
  - rewrite E. vm_compute. reflexivity.
Defined.

Lemma sec_to_timestamp_monotone_witness :
  str_le (sec_to_timestamp (decimal 36005 10)) (sec_to_timestamp (decimal 36615 10)).
Proof.
  apply sec_to_timestamp_monotone.
  - split; vm_compute; reflexivity.
  - split; vm_compute; reflexivity.
  - vm_compute. discriminate.
  - vm_compute. discriminate.
  - vm_compute. reflexivity.
Defined.

(** *** The orchestrator *)


Lemma download_events yt_dlp url format w r w' :
  download_youtube_audio yt_dlp url format w = (r, w') ->
  trace w' = trace w \/ exists command, trace w' = (trace w ++ [EvDownload command])%list.
Proof.
  unfold download_youtube_audio.
  destruct (String.eqb url ""); [intros [= _ <-]; now left|].
  unfold makedirs, chdir, subprocess_run.
  set (ws := abspath (cwd w) (join (cwd w) "whisper_workspace")).
  destruct (fs w !! ws) as [[|c]|] eqn:Hws.
  - cbn [cwd fs]. fold ws. rewrite Hws.
    match goal with |- context [path_exists ?w0 ?e] => destruct (path_exists w0 e) end.
    + intros [= _ <-]. now left.
    + match goal with |- context [yt_dlp ?c ?w0] => destruct (yt_dlp c w0) as [[|] m] end.
      * match goal with |- context [path_exists ?w0 ?e] => destruct (path_exists w0 e) end;
          intros [= _ <-]; right; eauto.
      * intros [= _ <-]; right; eauto.
  - intros [= _ <-]. now left.
  - cbn [cwd fs set_fs]. fold ws. rewrite lookup_insert_eq.
    match goal with |- context [path_exists ?w0 ?e] => destruct (path_exists w0 e) end.
    + intros [= _ <-]. now left.
    + match goal with |- context [yt_dlp ?c ?w0] => destruct (yt_dlp c w0) as [[|] m] end.
      * match goal with |- context [path_exists ?w0 ?e] => destruct (path_exists w0 e) end;
          intros [= _ <-]; right; eauto.
      * intros [= _ <-]; right; eauto.
Qed.

(** C5. When the acquisition returns no path, [process_youtube_to_srt]
    returns [None] in the state the acquisition left: nothing is written
    after it and the transcription engine is not called. *)
Theorem process_acquisition_failure yt_dlp transcribe url audio_format model_size language w w' :
  download_youtube_audio yt_dlp url audio_format w = (None, w') ->
  process_youtube_to_srt yt_dlp transcribe url audio_format model_size language w = (None, w')
  /\ filter (fun e => is_transcribe e = true) (trace w')
     = filter (fun e => is_transcribe e = true) (trace w).
Proof.
  intros H. split.
  - unfold process_youtube_to_srt. now rewrite H.
  - destruct (download_events _ _ _ _ _ _ H) as [-> | [command ->]]; [reflexivity|].
    rewrite filter_app. cbn. apply app_nil_r.
Qed.

Lemma process_acquisition_failure_witness :
  exists w',
    process_youtube_to_srt yt_dlp_fail transcribe_hello ex_url "mp3" "tiny" "auto" ex_home
    = (None, w')
    /\ filter (fun e => is_transcribe e = true) (trace w') = [].
Proof.
  eexists.
  refine (process_acquisition_failure yt_dlp_fail transcribe_hello ex_url "mp3" "tiny" "auto"
            ex_home _ _).
  vm_compute. reflexivity.
Defined.

(** C10. For an audio path that does not exist [generate_srt] returns
    [None] and leaves the state as it was: no call to the transcription
    engine, no file created. *)
Theorem generate_srt_missing_audio transcribe audio_file model_size language w :
  path_exists w audio_file = false ->
  generate_srt transcribe audio_file model_size language w = (None, w).
Proof. intros H. unfold generate_srt. now rewrite H. Qed.

Lemma generate_srt_missing_audio_witness :
  generate_srt transcribe_hello "/home/user/missing.mp3" "tiny" "auto" ex_home
  = (None, ex_home).
Proof.
  apply generate_srt_missing_audio. vm_compute. reflexivity.
Defined.

(** *** The model table *)

Lemma lower_model_key s v : model_map !! s = Some v -> lower s = s.
Proof.
  intros H. apply elem_of_list_to_map_2 in H.
  repeat (apply elem_of_cons in H as [[= -> ->] | H]; [reflexivity|]).
  now apply elem_of_nil in H.
Qed.

(** C6, amended. The lookup never fails and is made on the selector in
    lower case: a selector of the table maps to its entry, a selector whose
    lower-case form is in the table maps to that entry, and a selector whose
    lower-case form is none of the eight names maps to
    "mlx-community/whisper-large-v3-turbo-q4". *)
Theorem model_path_total model_size :
  (forall v, model_map !! model_size = Some v -> model_path model_size = v)
  /\ (forall v, model_map !! lower model_size = Some v -> model_path model_size = v)
  /\ (model_map !! lower model_size = None -> model_path model_size = default_model)
  /\ (lower model_size ∉ ["tiny"; "base"; "small"; "medium"; "large"; "large-4bit";
                          "turbo"; "turbo-4bit"] ->
      model_path model_size = "mlx-community/whisper-large-v3-turbo-q4")
  /\ model_path "tiny" = "mlx-community/whisper-tiny-mlx"
  /\ model_path "base" = "mlx-community/whisper-base-mlx"
  /\ model_path "small" = "mlx-community/whisper-small-mlx"
  /\ model_path "medium" = "mlx-community/whisper-medium-mlx"
  /\ model_path "large" = "mlx-community/whisper-large-v3-mlx"
  /\ model_path "large-4bit" = "mlx-community/whisper-large-v3-mlx-4bit"
  /\ model_path "turbo" = "mlx-community/whisper-large-v3-turbo"
  /\ model_path "turbo-4bit" = "mlx-community/whisper-large-v3-turbo-q4".
Proof.
  split; [|split; [|split; [|split]]].
  - intros v H. unfold model_path. now rewrite (lower_model_key _ _ H), H.
  - intros v H. unfold model_path. now rewrite H.
  - intros H. unfold model_path. now rewrite H.
  - intros H. unfold model_path.
    destruct (model_map !! lower model_size) as [v|] eqn:E; [|reflexivity].
    exfalso. apply H. apply elem_of_list_to_map_2 in E.
    apply (list_elem_of_fmap_2 fst) in E. exact E.
  - repeat split; vm_compute; reflexivity.
Qed.

Lemma model_path_total_witness :
  model_path "no-such-model" = "mlx-community/whisper-large-v3-turbo-q4".
Proof.
  refine (proj1 (proj2 (proj2 (proj2 (model_path_total "no-such-model")))) _).
  vm_compute. intros H.
  repeat (apply elem_of_cons in H as [H | H]; [discriminate|]).
  now apply elem_of_nil in H.
Defined.

(** C6 as stated fails on "TINY": it is not a key of the table and maps to
    the entry of "tiny", not to the default. *)
Lemma model_path_counterexample :
  model_map !! "TINY" = None
  /\ model_path "TINY" = "mlx-community/whisper-tiny-mlx"
  /\ model_path "TINY" <> default_model.
Proof. repeat split; try (vm_compute; reflexivity). vm_compute. discriminate. Qed.

Lemma resolve_srt_path_free_witness :
  resolve_srt_path "/home/user/whisper_workspace/youtube_abc12345678.mp3" "Tiny" ex_srt_world
  = Some "/home/user/whisper_workspace/youtube_abc12345678_tiny_03.srt".
Proof.
  destruct (resolve_srt_path_free "/home/user/whisper_workspace/youtube_abc12345678.mp3"
              "Tiny" ex_srt_world) as (p & E & _ & _ & _ & _ & _ & H3).
  rewrite E. f_equal. rewrite H3; vm_compute; reflexivity.
Defined.

(** ** Normalised paths *)

Lemma prefix_nil s : String.prefix "" s = true.
Proof. now destruct s. Qed.

Lemma prefix_cons a p b s :
  String.prefix (String a p) (String b s) = (Ascii.eqb a b && String.prefix p s)%bool.
Proof.
  cbn [String.prefix]. destruct (ascii_dec a b) as [-> | Hne].
  - now rewrite Ascii.eqb_refl.
  - apply Ascii.eqb_neq in Hne. now rewrite Hne.
Qed.

Lemma split_go_cons C : forall cur rest,
  no_slash C = true ->
  split_go "/" 0 cur (C +:+ "/" +:+ rest) = (cur +:+ C) :: split_go "/" 0 "" rest.
Proof.
  induction C as [|c C IH]; intros cur rest H.
  - change ("" +:+ "/" +:+ rest) with (String "/" rest).
    cbn [split_go]. rewrite prefix_slash. cbn [Ascii.eqb Bool.eqb String.length Nat.sub].
    now rewrite app_nil_r_str.
  - cbn [no_slash] in H. apply andb_prop in H as [Hc HC].
    rewrite app_cons. cbn [split_go]. rewrite prefix_slash.
    destruct (Ascii.eqb "/" c); [discriminate|].
    rewrite IH by assumption. now rewrite app_assoc_str.
Qed.

Lemma split_join l :
  l <> [] -> Forall (fun c => no_slash c = true) l ->
  split "/" (PyStr.join "/" l) = l.
Proof.
  unfold split. induction l as [|x l IH]; intros Hne Hall; [congruence|].
  apply Forall_cons in Hall as [Hx Hl].
  destruct l as [|y l].
  - cbn [PyStr.join]. now rewrite split_go_plain.
  - change (PyStr.join "/" (x :: y :: l)) with (x +:+ "/" +:+ PyStr.join "/" (y :: l)).
    rewrite split_go_cons by assumption. rewrite IH by (auto; congruence). reflexivity.
Qed.

Lemma split_go_no_slash s : forall cur,
  no_slash cur = true -> Forall (fun c => no_slash c = true) (split_go "/" 0 cur s).
Proof.
  induction s as [|c s IH]; intros cur H; cbn [split_go].
  - now constructor.
  - rewrite prefix_slash. destruct (Ascii.eqb "/" c) eqn:Hc.
    + constructor; [assumption|]. cbn [String.length Nat.sub]. now apply IH.
    + apply IH. rewrite no_slash_app, H. cbn [no_slash]. now rewrite Hc.
Qed.

Lemma norm_comps_clean i comps : forall st,
  (0 < i)%nat ->
  Forall (fun c => no_slash c = true) comps ->
  Forall clean_comp st ->
  Forall clean_comp (norm_comps i st comps).
Proof.
  induction comps as [|c comps IH]; intros st Hi Hc Hst; [assumption|].
  apply Forall_cons in Hc as [Hc Hcs]. cbn [norm_comps].
  destruct (String.eqb_spec c ""); [now apply IH|].
  destruct (String.eqb_spec c "."); cbn [orb]; [now apply IH|].
  destruct (String.eqb_spec c "..") as [-> | Hdd]; cbn [negb orb].
  - assert (Nat.eqb i 0 = false) as -> by (apply Nat.eqb_neq; lia). cbn [andb orb].
    destruct st as [|top st]; [now apply IH|].
    apply Forall_cons in Hst as [(_ & _ & _ & Htop) Hst].
    apply String.eqb_neq in Htop. rewrite Htop. now apply IH.
  - apply IH; [assumption | assumption |]. constructor; [|assumption].
    repeat split; assumption.
Qed.

Lemma norm_comps_keep i comps : forall st,
  Forall clean_comp comps -> norm_comps i st comps = (List.rev comps ++ st)%list.
Proof.
  induction comps as [|c comps IH]; intros st H; [reflexivity|].
  apply Forall_cons in H as [(_ & H1 & H2 & H3) Hcs]. cbn [norm_comps].
  apply String.eqb_neq in H1, H2, H3. rewrite H1, H2, H3. cbn [orb negb].
  rewrite IH by assumption. cbn [List.rev]. now rewrite <- app_assoc.
Qed.

Lemma norm_comps_skip i n st comps :
  norm_comps i st (List.repeat "" n ++ comps)%list = norm_comps i st comps.
Proof. induction n as [|n IH]; [reflexivity | exact IH]. Qed.

Lemma join_clean_head l :
  Forall clean_comp l -> starts_with "/" (PyStr.join "/" l) = false.
Proof.
  destruct l as [|x l]; [reflexivity|]. intros H.
  apply Forall_cons in H as [(Hs & Hne & _) _].
  assert (exists c x', x = String c x' /\ Ascii.eqb "/" c = false) as (c & x' & -> & Hc).
  { destruct x as [|c x']; [congruence|]. cbn [no_slash] in Hs.
    apply andb_prop in Hs as [Hs _]. exists c, x'. split; [reflexivity|].
    now destruct (Ascii.eqb "/" c). }
  unfold starts_with.
  destruct l as [|y l]; cbn [PyStr.join]; rewrite ?app_cons, prefix_slash; exact Hc.
Qed.

(** [normpath] of an absolute path is a fixed point of [normpath]. *)
Lemma normpath_absolute_idem x :
  starts_with "/" x = true ->
  starts_with "/" (normpath x) = true /\ normpath (normpath x) = normpath x.
Proof.
  intros Hx. unfold normpath at 1 3 4.
  assert (x <> "") as Hne by (intros ->; discriminate).
  apply String.eqb_neq in Hne. rewrite Hne.
  set (i := initial_slashes_of x).
  assert (Hi : i = 1%nat \/ i = 2%nat).
  { unfold i, initial_slashes_of. rewrite Hx.
    destruct (starts_with "//" x && negb (starts_with "///" x)); auto. }
  set (comps := List.rev (norm_comps i [] (split "/" x))).
  assert (Hclean : Forall clean_comp comps).
  { unfold comps. apply Forall_rev. apply norm_comps_clean; [lia | | constructor].
    apply split_go_no_slash. reflexivity. }
  pose proof (join_clean_head comps Hclean) as Hhead.
  set (j := PyStr.join "/" comps) in *.
  set (p := match i with O => j | 1%nat => "/" +:+ j | _ => "//" +:+ j end).
  assert (Hj0 : j = "" \/ exists c j', j = String c j' /\ Ascii.eqb "/" c = false).
  { destruct j as [|c j']; [now left | right].
    exists c, j'. split; [reflexivity|].
    unfold starts_with in Hhead. now rewrite prefix_slash in Hhead. }
  assert (Hp : p = (if Nat.eqb i 1 then "/" else "//") +:+ j).
  { unfold p. destruct Hi as [-> | ->]; reflexivity. }
  assert (Hpne : String.eqb p "" = false).
  { rewrite Hp. destruct Hi as [-> | ->]; reflexivity. }
  rewrite Hpne. split.
  { rewrite Hp. unfold starts_with.
    destruct Hi as [-> | ->]; cbn [Nat.eqb]; rewrite app_cons, prefix_slash; reflexivity. }
  unfold normpath. rewrite Hpne.
  assert (Hi' : initial_slashes_of p = i).
  { unfold initial_slashes_of, starts_with. rewrite Hp.
    destruct Hi as [-> | ->]; cbn [Nat.eqb].
    - change ("/" +:+ j) with (String "/" j).
      destruct Hj0 as [-> | (c & j' & -> & Hc)]; [reflexivity|].
      rewrite !prefix_cons, Hc, prefix_nil. reflexivity.
    - change ("//" +:+ j) with (String "/" (String "/" j)).
      destruct Hj0 as [-> | (c & j' & -> & Hc)]; [reflexivity|].
      rewrite !prefix_cons, Hc, !prefix_nil. reflexivity. }
  rewrite Hi'.
  assert (Hsplit : norm_comps i [] (split "/" p) = List.rev comps).
  { destruct comps as [|c0 comps0] eqn:Ec.
    - rewrite Hp. unfold j. cbn [PyStr.join]. destruct Hi as [-> | ->]; reflexivity.
    - assert (split "/" p = (List.repeat "" i ++ (c0 :: comps0))%list) as ->.
      { rewrite Hp. unfold split.
        assert (Hj : split_go "/" 0 "" j = c0 :: comps0).
        { apply (split_join (c0 :: comps0)); [congruence|].
          eapply Forall_impl; [exact Hclean | intros ? H; apply H]. }
        destruct Hi as [-> | ->]; cbn [Nat.eqb List.repeat app].
        - change ("/" +:+ j) with ("" +:+ "/" +:+ j).
          rewrite split_go_cons by reflexivity. now rewrite Hj.
        - change ("//" +:+ j) with ("" +:+ "/" +:+ ("" +:+ "/" +:+ j)).
          rewrite !split_go_cons by reflexivity. now rewrite Hj. }
      rewrite norm_comps_skip, norm_comps_keep by assumption. apply app_nil_r. }
  rewrite Hsplit, rev_involutive. fold j. fold p. now rewrite Hpne.
Qed.

(** ** The cases of the acquisition *)

Lemma normpath_nonempty x : normpath x <> "".
Proof.
  unfold normpath. destruct (String.eqb x ""); [discriminate|].
  match goal with |- (if String.eqb ?p "" then _ else _) <> _ =>
    destruct (String.eqb_spec p "") as [E | E]; [discriminate | exact E] end.
Qed.

Lemma abspath_absolute c e :
  starts_with "/" c = true ->
  starts_with "/" (abspath c e) = true /\ forall c', abspath c' (abspath c e) = abspath c e.
Proof.
  intros Hc. unfold abspath at 1 3 4.
  set (x := if starts_with "/" e then e else join c e).
  assert (Hx : starts_with "/" x = true).
  { unfold x. destruct (starts_with "/" e) eqn:He; [exact He|].
    unfold join. rewrite He. destruct c as [|a c]; [discriminate|].
    unfold starts_with in *. rewrite prefix_slash in Hc.
    destruct (String.eqb (String a c) "" || ends_with_char "/" (String a c));
      rewrite app_cons, prefix_slash; exact Hc. }
  destruct (normpath_absolute_idem x Hx) as [H1 H2].
  split; [exact H1|]. intros c'. unfold abspath. now rewrite H1.
Qed.

Lemma workspace_key_absolute w :
  starts_with "/" (cwd w) = true ->
  starts_with "/" (workspace_key w) = true
  /\ forall c', abspath c' (workspace_key w) = workspace_key w.
Proof. apply abspath_absolute. Qed.

(** The whole of [download_youtube_audio] for a URL that is not empty. *)
Lemma download_unfold yt_dlp url format w :
  url <> "" ->
  download_youtube_audio yt_dlp url format w
  = match fs w !! workspace_key w with
    | Some (File _) => (None, w)
    | _ =>
        if path_exists (entered w) (expected_file url format)
        then (Some (abspath (workspace_key w) (expected_file url format)), entered w)
        else
          if fst (yt_dlp (yt_dlp_command url format) (entered w)) then
            if path_exists (downloaded yt_dlp url format w) (expected_file url format)
            then (Some (abspath (workspace_key w) (expected_file url format)),
                  downloaded yt_dlp url format w)
            else (None, downloaded yt_dlp url format w)
          else (None, downloaded yt_dlp url format w)
    end.
Proof.
  intros Hne. unfold download_youtube_audio.
  apply String.eqb_neq in Hne. rewrite Hne.
  unfold makedirs, chdir, subprocess_run, downloaded, entered.
  fold (workspace_key w). fold (video_id url). fold (expected_file url format).
  assert (Hcmd : "yt-dlp " +:+ "--hls-use-mpegts " +:+ "--force-overwrites "
                 +:+ "-x --audio-format " +:+ format +:+ " "
                 +:+ "-o '" +:+ ("youtube_" +:+ video_id url +:+ ".%(ext)s") +:+ "' "
                 +:+ "'" +:+ url +:+ "'" = yt_dlp_command url format).
  { unfold yt_dlp_command. cbn [String.append]. rewrite !app_assoc_str. reflexivity. }
  rewrite Hcmd.
  destruct (fs w !! workspace_key w) as [[|c]|] eqn:Hws.
  - cbn [cwd fs]. fold (workspace_key w). rewrite Hws.
    destruct w as [cw m t]; cbn [cwd fs trace] in *.
    match goal with |- context [path_exists ?w0 ?e] => destruct (path_exists w0 e) end;
      [reflexivity|].
    match goal with |- context [yt_dlp ?c ?w0] => destruct (yt_dlp c w0) as [[|] m0] end;
      reflexivity.
  - reflexivity.
  - cbn [cwd fs set_fs]. fold (workspace_key w). rewrite lookup_insert_eq.
    cbn [log set_fs cwd fs trace].
    match goal with |- context [path_exists ?w0 ?e] => destruct (path_exists w0 e) end;
      [reflexivity|].
    match goal with |- context [yt_dlp ?c ?w0] => destruct (yt_dlp c w0) as [[|] m0] end;
      reflexivity.
Qed.

Lemma path_exists_abspath w e :
  starts_with "/" (cwd w) = true ->
  path_exists w (abspath (cwd w) e) = path_exists w e.
Proof.
  intros H. unfold path_exists.
  now rewrite (proj2 (abspath_absolute (cwd w) e H)).
Qed.

Lemma download_Some_cases yt_dlp url format w p w' :
  download_youtube_audio yt_dlp url format w = (Some p, w') ->
  p = abspath (workspace_key w) (expected_file url format)
  /\ cwd w' = workspace_key w
  /\ path_exists w' (expected_file url format) = true.
Proof.
  intros H.
  destruct (String.eqb_spec url "") as [-> | Hne]; [discriminate H|].
  rewrite download_unfold in H by assumption.
  fold (expected_file url format) in H.
  destruct (fs w !! workspace_key w) as [[|c]|] eqn:E; try discriminate H;
    (destruct (path_exists (entered w) (expected_file url format)) eqn:He;
     [ injection H as <- <-; now auto
     | destruct (fst (yt_dlp _ _)); [|discriminate H];
       destruct (path_exists (downloaded yt_dlp url format w) (expected_file url format))
         eqn:He1; [|discriminate H];
       injection H as <- <-; now auto ]).
Qed.

Lemma download_Some_exists yt_dlp url format w p w' :
  starts_with "/" (cwd w) = true ->
  download_youtube_audio yt_dlp url format w = (Some p, w') ->
  path_exists w' p = true.
Proof.
  intros Hcwd H. apply download_Some_cases in H as (-> & Hc & He).
  rewrite <- Hc at 1. rewrite path_exists_abspath; [assumption|].
  rewrite Hc. apply (workspace_key_absolute w Hcwd).
Qed.

(** X2. Started in an absolute directory, a path that
    [download_youtube_audio] returns names an entry of the file system it
    leaves; it is the normalised absolute path of [youtube_<id>.<format>] in
    the workspace, which is also the new working directory, and [abspath]
    leaves it as it is from any directory. *)
Theorem download_returns_existing_file yt_dlp url format w p w' :
  starts_with "/" (cwd w) = true ->
  download_youtube_audio yt_dlp url format w = (Some p, w') ->
  path_exists w' p = true
  /\ p = abspath (workspace_key w) ("youtube_" +:+ video_id url +:+ "." +:+ format)
  /\ cwd w' = workspace_key w
  /\ starts_with "/" p = true
  /\ forall c, abspath c p = p.
Proof.
  intros Hcwd H. split; [exact (download_Some_exists _ _ _ _ _ _ Hcwd H)|].
  apply download_Some_cases in H as (-> & Hc & _).
  destruct (workspace_key_absolute w Hcwd) as [Hws _].
  repeat split; auto; apply abspath_absolute, Hws.
Qed.

Lemma download_returns_existing_file_witness :
  path_exists (snd (download_youtube_audio yt_dlp_ok ex_url "mp3" ex_home))
    "/home/user/whisper_workspace/youtube_abc12345678.mp3" = true.
Proof.
  refine (proj1 (download_returns_existing_file yt_dlp_ok ex_url "mp3" ex_home
                   "/home/user/whisper_workspace/youtube_abc12345678.mp3" _ _ _)).
  - vm_compute. reflexivity.
  - vm_compute. reflexivity.
Defined.

(** X3. [download_youtube_audio] runs yt-dlp at most once, only
    for a URL that is not empty and a file that is not in the workspace yet,
    and with the command of lines 35 to 42. *)
Theorem download_runs_yt_dlp_once yt_dlp url format w :
  let w' := snd (download_youtube_audio yt_dlp url format w) in
  trace w' = trace w
  \/ (trace w'
      = (trace w ++ [EvDownload
           ("yt-dlp --hls-use-mpegts --force-overwrites -x --audio-format " +:+ format
            +:+ " -o 'youtube_" +:+ video_id url +:+ ".%(ext)s' '" +:+ url +:+ "'")])%list
      /\ url <> ""
      /\ path_exists (entered w) ("youtube_" +:+ video_id url +:+ "." +:+ format) = false).
Proof.
  cbv zeta. destruct (String.eqb_spec url "") as [-> | Hne]; [now left|].
  rewrite download_unfold by assumption.
  fold (expected_file url format). fold (yt_dlp_command url format).
  destruct (fs w !! workspace_key w) as [[|c]|]; try (now left);
    (destruct (path_exists (entered w) (expected_file url format)) eqn:He; [now left|];
     right; destruct (fst (yt_dlp _ _)); [|now auto];
     destruct (path_exists (downloaded yt_dlp url format w) (expected_file url format));
     now auto).
Qed.

(** X4. On a cache miss, a yt-dlp that exits with an error, or
    that leaves no file of the expected name, makes [download_youtube_audio]
    return [None]; the process stays in the workspace, with the files yt-dlp
    left and that one call in the trace. *)
Theorem download_yt_dlp_failure yt_dlp url format w :
  url <> "" ->
  (forall c, fs w !! workspace_key w <> Some (File c)) ->
  path_exists (entered w) ("youtube_" +:+ video_id url +:+ "." +:+ format) = false ->
  fst (yt_dlp (yt_dlp_command url format) (entered w)) = false
  \/ snd (yt_dlp (yt_dlp_command url format) (entered w))
       !! abspath (workspace_key w) ("youtube_" +:+ video_id url +:+ "." +:+ format) = None ->
  download_youtube_audio yt_dlp url format w
  = (None, {| cwd := workspace_key w;
              fs := snd (yt_dlp (yt_dlp_command url format) (entered w));
              trace := trace w ++ [EvDownload (yt_dlp_command url format)] |}).
Proof.
  intros Hne Hws He Hfail. rewrite download_unfold by assumption.
  fold (expected_file url format) in *. rewrite He.
  fold (downloaded yt_dlp url format w).
  assert ((if fst (yt_dlp (yt_dlp_command url format) (entered w)) then
             if path_exists (downloaded yt_dlp url format w) (expected_file url format)
             then (Some (abspath (workspace_key w) (expected_file url format)),
                   downloaded yt_dlp url format w)
             else (None, downloaded yt_dlp url format w)
           else (None, downloaded yt_dlp url format w))
          = (None, downloaded yt_dlp url format w)) as E.
  { destruct Hfail as [-> | Hm]; [reflexivity|].
    unfold path_exists. cbn [cwd fs downloaded]. rewrite Hm.
    now destruct (fst (yt_dlp _ _)). }
  destruct (fs w !! workspace_key w) as [[|c]|] eqn:Hk; [exact E | | exact E].
  exfalso. exact (Hws c eq_refl).
Qed.

Lemma download_yt_dlp_failure_witness :
  download_youtube_audio yt_dlp_nothing ex_url "mp3" ex_home
  = (None, {| cwd := "/home/user/whisper_workspace";
              fs := {[ "/home/user" := Dir; "/home/user/whisper_workspace" := Dir ]};
              trace := [EvDownload (yt_dlp_command ex_url "mp3")] |}).
Proof.
  rewrite (download_yt_dlp_failure yt_dlp_nothing ex_url "mp3" ex_home).
  - vm_compute. reflexivity.
  - discriminate.
  - intros c. vm_compute. discriminate.
  - vm_compute. reflexivity.
  - right. vm_compute. reflexivity.
Defined.

(** *** The video identifier *)

Lemma split_go_absent sep s : forall cur,
  contains sep s = false -> split_go sep 0 cur s = [cur +:+ s].
Proof.
  induction s as [|c s IH]; intros cur H; cbn [split_go].
  - now rewrite app_nil_r_str.
  - cbn [contains] in H. apply orb_false_elim in H as [Hp Hc].
    rewrite Hp, IH by assumption. now rewrite app_assoc_str.
Qed.

Lemma split_go_nonempty sep s : forall skip cur, split_go sep skip cur s <> [].
Proof.
  induction s as [|c s IH]; intros skip cur; cbn [split_go]; [discriminate|].
  destruct skip; [|apply IH].
  destruct (String.prefix sep (String c s)); [discriminate | apply IH].
Qed.

Lemma last_cons_nonempty {A} (x : A) l d : l <> [] -> List.last (x :: l) d = List.last l d.
Proof. destruct l; [congruence | reflexivity]. Qed.

(** The marker [watch?v=] cannot start less than its own length before an
    occurrence of itself. *)
Lemma marker_no_overlap t rest :
  (0 < String.length t < 8)%nat ->
  String.prefix "watch?v=" (t +:+ "watch?v=" +:+ rest) = false.
Proof.
  intros Hlen.
  destruct (String.prefix "watch?v=" (t +:+ "watch?v=" +:+ rest)) eqn:Hp; [|reflexivity].
  exfalso. apply prefix_correct in Hp.
  assert (Hget : String.get (String.length t) "watch?v=" = Some "w"%char).
  { pose proof (substring_correct1 (t +:+ "watch?v=" +:+ rest) 0 8 (String.length t)
                  ltac:(lia)) as H1.
    change (String.length "watch?v=") with 8%nat in Hp. rewrite Hp in H1.
    rewrite H1, Nat.add_0_r. rewrite <- (Nat.add_0_l (String.length t)).
    rewrite <- append_correct2. reflexivity. }
  destruct (String.length t) as [|[|[|[|[|[|[|[|n]]]]]]]]; try lia; discriminate Hget.
Qed.

Lemma split_go_marker rest :
  contains "watch?v=" rest = false ->
  forall pre skip cur,
    (skip <= String.length pre)%nat ->
    last_piece (split_go "watch?v=" skip cur (pre +:+ "watch?v=" +:+ rest)) = rest.
Proof.
  intros Hrest. unfold last_piece.
  induction pre as [|c pre IH]; intros skip cur Hskip.
  - destruct skip; [|cbn in Hskip; lia].
    change ("" +:+ "watch?v=" +:+ rest) with ("watch?v=" +:+ rest).
    change ("watch?v=" +:+ rest) with
      (String "w" (String "a" (String "t" (String "c" (String "h" (String "?"
         (String "v" (String "=" rest)))))))).
    cbn [split_go]. rewrite !prefix_cons, prefix_nil. cbn [Ascii.eqb Bool.eqb andb].
    cbn [String.length Nat.sub].
    rewrite split_go_absent by assumption. reflexivity.
  - rewrite app_cons. cbn [split_go]. cbn [String.length] in Hskip.
    destruct skip as [|k]; [|apply IH; lia].
    rewrite <- app_cons.
    destruct (String.prefix "watch?v=" (String c pre +:+ "watch?v=" +:+ rest)) eqn:Hp.
    + assert (8 <= String.length (String c pre))%nat as Hlen.
      { destruct (Nat.le_gt_cases 8 (String.length (String c pre))) as [H | H]; [exact H|].
        rewrite marker_no_overlap in Hp; [discriminate | cbn [String.length] in *; lia]. }
      rewrite last_cons_nonempty by apply split_go_nonempty.
      apply IH. cbn [String.length] in *. lia.
    + apply IH. lia.
Qed.

(** X1. For a URL with one [watch?v=] marker the video identifier of
    line 22 is the first eleven characters of what follows the marker (fewer
    when less follows), so it never has more than eleven characters. *)
Theorem video_id_of_watch_url pre rest :
  contains "watch?v=" rest = false ->
  video_id (pre +:+ "watch?v=" +:+ rest) = take 11 rest
  /\ (String.length (video_id (pre +:+ "watch?v=" +:+ rest)) <= 11)%nat.
Proof.
  intros H. unfold video_id, split. rewrite split_go_marker by (auto; lia).
  split; [reflexivity|].
  unfold take. generalize 11%nat. induction rest as [|c rest IH]; intros [|n]; cbn; try lia.
  specialize (IH ltac:(cbn [contains] in H; now apply orb_false_elim in H) n). lia.
Qed.

Lemma video_id_of_watch_url_witness :
  video_id ("https://www.youtube.com/" +:+ "watch?v=" +:+ "abc12345678&t=42s")
  = "abc12345678".
Proof.
  refine (proj1 (video_id_of_watch_url "https://www.youtube.com/" "abc12345678&t=42s" _)).
  vm_compute. reflexivity.
Defined.

Lemma video_id_absent url :
  contains "watch?v=" url = false -> video_id url = take 11 url.
Proof. intros H. unfold video_id, split. now rewrite split_go_absent. Qed.

Lemma download_cached yt_dlp url format w :
  url <> "" ->
  fs w !! workspace_key w = Some Dir ->
  is_Some (fs w !! abspath (workspace_key w) (expected_file url format)) ->
  download_youtube_audio yt_dlp url format w
  = (Some (abspath (workspace_key w) (expected_file url format)),
     {| cwd := workspace_key w; fs := fs w; trace := trace w |}).
Proof.
  intros Hne Hws [n Hn]. rewrite download_unfold by assumption. rewrite Hws.
  unfold path_exists, entered. cbn [cwd fs]. rewrite Hws, Hn. reflexivity.
Qed.

(** X5. Two URLs without [watch?v=] that agree on their
    first eleven characters share one audio file: once the first is
    downloaded, the second is answered from that file and yt-dlp is not run. *)
Theorem download_short_urls_collide yt_dlp url1 url2 format w1 w1' w2 p :
  contains "watch?v=" url1 = false ->
  contains "watch?v=" url2 = false ->
  take 11 url1 = take 11 url2 ->
  download_youtube_audio yt_dlp url1 format w1 = (Some p, w1') ->
  cwd w2 = cwd w1 ->
  fs w2 !! workspace_key w1 = Some Dir ->
  is_Some (fs w2 !! p) ->
  exists w2',
    download_youtube_audio yt_dlp url2 format w2 = (Some p, w2')
    /\ trace w2' = trace w2.
Proof.
  intros H1 H2 Htake Hd Hcwd Hws Hp.
  apply download_result in Hd as [Hne ->].
  fold (video_id url1) in Hp |- *. fold (workspace_key w1) in Hp |- *.
  assert (Hid : video_id url2 = video_id url1).
  { now rewrite !video_id_absent by assumption. }
  assert (Hne2 : url2 <> "").
  { intros ->. destruct url1; [congruence | discriminate Htake]. }
  assert (Hk : workspace_key w2 = workspace_key w1) by (unfold workspace_key; now rewrite Hcwd).
  eexists. rewrite download_cached; unfold expected_file; rewrite ?Hid, ?Hk; auto.
Qed.

Lemma download_short_urls_collide_witness :
  exists w2',
    download_youtube_audio yt_dlp_short ex_short_url_2 "mp3"
      (restart "/home/user"
         (snd (download_youtube_audio yt_dlp_short ex_short_url_1 "mp3" ex_home)))
    = (Some "/home/user/whisper_workspace/youtube_https:/you.mp3", w2')
    /\ trace w2' = [EvDownload (yt_dlp_command ex_short_url_1 "mp3")].
Proof.
  destruct (download_short_urls_collide yt_dlp_short ex_short_url_1 ex_short_url_2 "mp3"
              ex_home (snd (download_youtube_audio yt_dlp_short ex_short_url_1 "mp3" ex_home))
              (restart "/home/user"
                 (snd (download_youtube_audio yt_dlp_short ex_short_url_1 "mp3" ex_home)))
              "/home/user/whisper_workspace/youtube_https:/you.mp3")
    as (w2' & E & Ht); try (vm_compute; reflexivity).
  - exists (File "audio"). vm_compute. reflexivity.
  - exists w2'. split; [exact E|]. rewrite Ht. vm_compute. reflexivity.
Defined.

(** ** The subtitle generation as a whole *)

Lemma write_srt_world segments p w w' :
  write_srt segments p w = Some w' ->
  w' = set_fs w (<[abspath (cwd w) p
                   := File (concat_str (map srt_block (enumerate segments 1)))]> (fs w)).
Proof.
  rewrite write_srt_document.
  destruct (open_w p w) as [[key w0]|] eqn:Ho; [|discriminate].
  apply open_w_spec in Ho as [-> _]. now intros [= <-].
Qed.

(** X8. A [write_srt] that succeeds sets the file at the absolute
    path of [srt_path] to the document of the segments and changes no other
    entry, nor the working directory, nor the trace. *)
Theorem write_srt_frame segments p w w' :
  write_srt segments p w = Some w' ->
  fs w' !! abspath (cwd w) p
  = Some (File (concat_str (map srt_block (enumerate segments 1))))
  /\ (forall k, k <> abspath (cwd w) p -> fs w' !! k = fs w !! k)
  /\ cwd w' = cwd w /\ trace w' = trace w.
Proof.
  intros H. apply write_srt_world in H as ->. cbn [fs set_fs cwd trace].
  repeat split; [apply lookup_insert_eq|].
  intros k Hk. now apply lookup_insert_ne.
Qed.

Lemma write_srt_frame_witness :
  exists w', write_srt [hi_segment] ex_srt_path ex_old_world = Some w'
             /\ fs w' !! ex_srt_path = Some (File hi_document)
             /\ fs w' !! "/home/user/whisper_workspace/youtube_abc12345678.mp3"
                = Some (File "audio").
Proof.
  assert (Hkey : abspath (cwd ex_old_world) ex_srt_path = ex_srt_path)
    by (vm_compute; reflexivity).
  destruct (write_srt [hi_segment] ex_srt_path ex_old_world) as [w'|] eqn:E.
  - exists w'. split; [reflexivity|].
    destruct (write_srt_frame _ _ _ _ E) as (Hdoc & Hother & _).
    rewrite Hkey, hi_segment_document in Hdoc. split; [exact Hdoc|].
    rewrite Hother; [vm_compute; reflexivity | rewrite Hkey; discriminate].
  - vm_compute in E. discriminate E.
Defined.

Lemma resolve_srt_path_Some audio model w :
  exists p, resolve_srt_path audio model w = Some p
            /\ path_exists w p = false /\ p <> "".
Proof.
  rewrite resolve_srt_path_candidate.
  set (b := fst (splitext audio)). set (m := lower model).
  destruct (free_srt_path (S (size (fs w))) w b m (srt_candidate b m 0) (Z.of_nat 0 + 2))
    as [r|] eqn:E.
  - destruct (free_srt_path_Some _ _ _ _ _ _ E) as (j & _ & -> & Hfree & _).
    eexists. split; [reflexivity|]. split; [assumption|].
    rewrite srt_candidate_suffix. intros H. apply (f_equal String.length) in H.
    rewrite length_app_str in H.
    destruct j; unfold srt_suffix in H; rewrite ?length_app_str in H; cbn in H; lia.
  - pose proof (existing_candidates_bound w b m (S (size (fs w)))
                  (fun i Hi => free_srt_path_None _ w b m 0%nat E i ltac:(lia))). lia.
Qed.

(** The whole of [generate_srt] once the audio file is there. *)
Lemma generate_srt_unfold transcribe audio model language w :
  path_exists w audio = true ->
  let r := transcribe audio (model_path model) (language_kwarg language) w in
  let w1 := {| cwd := cwd w; fs := snd r;
               trace := trace w ++ [EvTranscribe audio (model_path model)
                                      (language_kwarg language)] |} in
  generate_srt transcribe audio model language w
  = match fst r with
    | None => (None, w1)
    | Some segments =>
        match resolve_srt_path audio model w1 with
        | None => (None, w1)
        | Some srt_path =>
            match write_srt segments srt_path w1 with
            | None => (None, w1)
            | Some w2 => (Some srt_path, w2)
            end
        end
    end.
Proof.
  intros He. cbv zeta. unfold generate_srt. rewrite He. cbn [negb].
  fold (language_kwarg language).
  destruct (transcribe audio (model_path model) (language_kwarg language) w) as [res m].
  cbn [fst snd]. unfold set_fs, log. cbn [cwd fs trace]. reflexivity.
Qed.

Lemma generate_srt_trace transcribe audio model language w :
  path_exists w audio = true ->
  trace (snd (generate_srt transcribe audio model language w))
  = (trace w ++ [EvTranscribe audio (model_path model) (language_kwarg language)])%list.
Proof.
  intros He. rewrite generate_srt_unfold by assumption. cbv zeta.
  destruct (fst (transcribe _ _ _ _)) as [segs|]; [|reflexivity].
  destruct (resolve_srt_path _ _ _) as [p|]; [|reflexivity].
  destruct (write_srt segs p _) as [w2|] eqn:Ew; [|reflexivity].
  cbn [snd]. now apply write_srt_world in Ew as ->.
Qed.

(** X9. When the audio file exists, [generate_srt] calls
    the engine exactly once, whatever happens afterwards: on that file, with
    the model of the table and with the language unless it is "auto" in any
    case of letters. *)
Theorem generate_srt_calls_engine_once transcribe audio_file model_size language w :
  path_exists w audio_file = true ->
  trace (snd (generate_srt transcribe audio_file model_size language w))
  = (trace w ++ [EvTranscribe audio_file (model_path model_size)
                   (if String.eqb (lower language) "auto" then None else Some language)])%list.
Proof.
  intros He. rewrite generate_srt_trace by assumption.
  unfold language_kwarg. now destruct (String.eqb (lower language) "auto").
Qed.

Lemma generate_srt_calls_engine_once_witness :
  trace (snd (generate_srt transcribe_hello
                "/home/user/whisper_workspace/youtube_abc12345678.mp3" "Tiny" "AUTO"
                ex_old_world))
  = [EvTranscribe "/home/user/whisper_workspace/youtube_abc12345678.mp3"
       "mlx-community/whisper-tiny-mlx" None].
Proof.
  rewrite generate_srt_calls_engine_once.
  - vm_compute. reflexivity.
  - vm_compute. reflexivity.
Defined.

(** X10. When [generate_srt] returns a path, the
    engine returned segments, the path was free in the file system the engine
    left, and the final file system is that one with the document added:
    every entry that was there is kept. *)
Theorem generate_srt_keeps_existing_files transcribe audio_file model_size language w p w' :
  generate_srt transcribe audio_file model_size language w = (Some p, w') ->
  let r := transcribe audio_file (model_path model_size) (language_kwarg language) w in
  exists segments,
    fst r = Some segments
    /\ snd r !! abspath (cwd w) p = None
    /\ fs w' = <[abspath (cwd w) p :=
                   File (concat_str (map srt_block (enumerate segments 1)))]> (snd r)
    /\ (forall k n, snd r !! k = Some n -> fs w' !! k = Some n)
    /\ cwd w' = cwd w.
Proof.
  intros H. cbv zeta.
  destruct (path_exists w audio_file) eqn:He.
  2:{ unfold generate_srt in H. rewrite He in H. discriminate H. }
  rewrite generate_srt_unfold in H by assumption. cbv zeta in H.
  set (r := transcribe audio_file (model_path model_size) (language_kwarg language) w) in *.
  set (w1 := {| cwd := cwd w; fs := snd r; trace := _ |}) in *.
  destruct (fst r) as [segs|]; [|discriminate H].
  destruct (resolve_srt_path_Some audio_file model_size w1) as (q & Eq & Hfree & _).
  rewrite Eq in H.
  destruct (write_srt segs q w1) as [w2|] eqn:Ew; [|discriminate H].
  injection H as <- <-.
  assert (Hnone : snd r !! abspath (cwd w) q = None).
  { unfold path_exists in Hfree. cbn [cwd fs w1] in Hfree.
    now destruct (snd r !! abspath (cwd w) q). }
  pose proof Ew as Hdoc. rewrite write_srt_document in Hdoc.
  destruct (open_w q w1) as [[key w0]|] eqn:Ho; [|discriminate Hdoc].
  apply open_w_spec in Ho as [-> _]. injection Hdoc as <-.
  exists segs. cbn [fs set_fs cwd w1]. repeat split; try assumption.
  intros k n Hk. rewrite lookup_insert_ne; [assumption|]. intros <-. congruence.
Qed.

Lemma generate_srt_keeps_existing_files_witness :
  fs (snd (generate_srt transcribe_hello
             "/home/user/whisper_workspace/youtube_abc12345678.mp3" "tiny" "auto"
             ex_old_world))
    !! "/home/user/whisper_workspace/youtube_abc12345678_tiny.srt"
  = Some (File "old").
Proof.
  assert (generate_srt transcribe_hello
            "/home/user/whisper_workspace/youtube_abc12345678.mp3" "tiny" "auto" ex_old_world
          = (Some "/home/user/whisper_workspace/youtube_abc12345678_tiny_02.srt",
             snd (generate_srt transcribe_hello
                    "/home/user/whisper_workspace/youtube_abc12345678.mp3" "tiny" "auto"
                    ex_old_world))) as E by (vm_compute; reflexivity).
  destruct (generate_srt_keeps_existing_files _ _ _ _ _ _ _ E)
    as (segs & _ & _ & _ & Hkeep & _).
  apply Hkeep. vm_compute. reflexivity.
Defined.

(** ** More on the timestamp *)

Lemma hours_exact x :
  0 <= x -> x < 2 ^ 53 * U ->
  int_of_float (float_floordiv (x / (3600 * U) * (3600 * U)) (3600 * U)) = x / (3600 * U).
Proof.
  intros H0 Hlt. pose proof U_pos as HU.
  set (h := x / (3600 * U)).
  assert (Hh0 : 0 <= h) by (apply Z.div_pos; lia).
  assert (Hh : h * 3600 < 2 ^ 53).
  { pose proof (Z.mul_div_le x (3600 * U) ltac:(lia)) as Hle. fold h in Hle. nia. }
  unfold float_floordiv.
  rewrite (float_divmod_nonneg (h * (3600 * U)) 3600); [|nia | lia |].
  - cbn [fst]. rewrite Z.div_mul by lia.
    rewrite int_of_float_nonneg by nia. now rewrite Z.div_mul by lia.
  - rewrite Z.div_mul by lia. exact Hh.
Qed.

Lemma round_abs_0 d : 0 < d -> round_abs 0 d = 0.
Proof.
  intros Hd. change (round_abs 0 d) with (round_abs (0 * d) d).
  apply round_abs_exact; [lia | | lia].
  apply Z.mod_0_l. pose proof (ulp_of_pos 0). lia.
Qed.

(** X14. On a whole number of seconds below 2^53 the
    timestamp is the integer decomposition of that number with ",000". *)
Theorem sec_to_timestamp_whole_seconds n :
  0 <= n < 2 ^ 53 ->
  sec_to_timestamp (float_of_int n)
  = format_0 2 (n / 3600) +:+ ":" +:+ format_0 2 (n mod 3600 / 60) +:+ ":"
    +:+ format_0 2 (n mod 60) +:+ ",000".
Proof.
  intros Hn. pose proof U_pos as HU.
  rewrite float_of_int_exact by (rewrite Z.abs_eq; lia).
  rewrite sec_to_timestamp_nonneg; [|nia | apply fits53_int; rewrite Z.abs_eq; lia].
  rewrite hours_exact by nia.
  rewrite !Z.div_mul_cancel_r by lia.
  rewrite !Z.mul_mod_distr_r by lia.
  rewrite Z.div_mul_cancel_r by lia.
  rewrite Z.div_mul by lia.
  rewrite Z.mod_mul by lia. rewrite Z.mul_0_l, round_abs_0 by lia.
  rewrite Z.div_0_l by lia. reflexivity.
Qed.

Lemma sec_to_timestamp_whole_seconds_witness :
  sec_to_timestamp (float_of_int 3661) = "01:01:01,000".
Proof.
  rewrite sec_to_timestamp_whole_seconds; [reflexivity|].
  split; [lia | reflexivity].
Defined.

Lemma decimal_short d :
  (String.length (NilEmpty.string_of_uint d) <= 2)%nat -> Z.of_uint d < 100.
Proof.
  intros H.
  destruct d as [|d|d|d|d|d|d|d|d|d|d]; try (vm_compute; reflexivity);
  destruct d as [|d|d|d|d|d|d|d|d|d|d]; try (vm_compute; reflexivity);
  destruct d; try (vm_compute; reflexivity); cbn in H; lia.
Qed.

Lemma format_0_2_long h : 100 <= h -> (3 <= String.length (format_0 2 h))%nat.
Proof.
  intros Hh. rewrite format_0_nonneg by lia.
  rewrite length_app_str, length_zeros.
  destruct (str_nonneg h ltac:(lia)) as (d & E & Hd). rewrite E.
  destruct (Nat.le_gt_cases (String.length (NilEmpty.string_of_uint d)) 2) as [Hle | Hgt]; [|lia].
  apply decimal_short in Hle. lia.
Qed.

(** X15. For a binary64 time from 0 up to 2^53 seconds the
    timestamp has twelve characters below 100 hours and at least thirteen from
    100 hours on. *)
Theorem sec_to_timestamp_width sec :
  binary64 sec -> 0 <= sec -> sec < 2 ^ 53 * U ->
  (sec < 360000 * U -> String.length (sec_to_timestamp sec) = 12%nat)
  /\ (360000 * U <= sec -> (13 <= String.length (sec_to_timestamp sec))%nat).
Proof.
  intros [Hf _] H0 Hlt. pose proof U_pos as HU.
  rewrite (sec_to_timestamp_nonneg sec H0 Hf), hours_exact by assumption.
  assert (Rm : 0 <= sec mod (3600 * U) / (60 * U) < 100)
    by (pose proof (minutes_range sec H0); lia).
  assert (Rs : 0 <= sec mod (60 * U) / U < 100)
    by (pose proof (seconds_range sec H0); lia).
  pose proof (milliseconds_range sec H0 Hf) as Rf.
  rewrite !length_app_str.
  rewrite (proj2 (field2 _ _ Rm Rm)), (proj2 (field2 _ _ Rs Rs)), (proj2 (field3 _ _ Rf Rf)).
  cbn [String.length].
  assert (Hh0 : 0 <= sec / (3600 * U)) by (apply Z.div_pos; lia).
  split; intros Hs.
  - assert (Hh : sec / (3600 * U) < 100) by (apply Z.div_lt_upper_bound; lia).
    rewrite (proj2 (field2 _ _ (conj Hh0 Hh) (conj Hh0 Hh))). reflexivity.
  - assert (Hh : 100 <= sec / (3600 * U)) by (apply Z.div_le_lower_bound; lia).
    pose proof (format_0_2_long _ Hh). lia.
Qed.

Lemma sec_to_timestamp_width_witness :
  String.length (sec_to_timestamp (float_of_int 360000)) = 13%nat
  /\ sec_to_timestamp (float_of_int 360000) = "100:00:00,000".
Proof.
  destruct (sec_to_timestamp_width (float_of_int 360000)) as [_ H].
  - split; vm_compute; reflexivity.
  - vm_compute. discriminate.
  - vm_compute. reflexivity.
  - split; vm_compute; reflexivity.
Defined.

(** X16. A negative time above -3600 seconds does not raise;
    its timestamp starts with the hour field "-1". *)
Theorem sec_to_timestamp_negative sec :
  - (3600 * U) < sec < 0 ->
  exists rest, sec_to_timestamp sec = "-1:" +:+ rest.
Proof.
  intros Hs. pose proof U_pos as HU.
  unfold sec_to_timestamp. eexists.
  assert (int_of_float (float_floordiv sec (float_of_int 3600)) = -1) as ->; [|reflexivity].
  rewrite float_of_int_exact by (cbn; lia).
  unfold float_floordiv, float_divmod, fmod.
  assert (Hrem : Z.rem sec (3600 * U) = sec) by (apply Z.rem_small_iff; lia).
  rewrite Hrem.
  assert (float_sub sec sec = 0) as ->.
  { unfold float_sub. rewrite Z.sub_diag. apply rnd_exact1, fits53_0. }
  assert (float_div 0 (3600 * U) = 0) as -> by reflexivity.
  assert ((sec =? 0) = false) as -> by (apply Z.eqb_neq; lia).
  assert ((3600 * U <? 0) = false) as -> by (apply Z.ltb_ge; lia).
  assert ((sec <? 0) = true) as -> by (apply Z.ltb_lt; lia).
  cbn [negb Bool.eqb fst].
  rewrite float_of_int_exact by (cbn; lia).
  assert (float_sub 0 (1 * U) = -1 * U) as ->.
  { unfold float_sub. replace (0 - 1 * U) with (-1 * U) by lia.
    apply rnd_exact1, fits53_int. cbn. lia. }
  assert ((-1 * U =? 0) = false) as -> by (apply Z.eqb_neq; lia).
  cbn [negb].
  assert (floor (-1 * U) = -1 * U) as -> by (unfold floor; now rewrite Z.div_mul by lia).
  assert (float_sub (-1 * U) (-1 * U) = 0) as ->.
  { unfold float_sub. rewrite Z.sub_diag. apply rnd_exact1, fits53_0. }
  assert ((U <? 2 * 0) = false) as -> by (apply Z.ltb_ge; lia).
  unfold int_of_float. rewrite Z.quot_mul by lia. reflexivity.
Qed.

Lemma sec_to_timestamp_negative_witness :
  exists rest, sec_to_timestamp (decimal (-5) 10) = "-1:" +:+ rest.
Proof.
  apply sec_to_timestamp_negative. split; vm_compute; reflexivity.
Defined.





Lemma generate_srt_result_nonempty transcribe audio model language w p w' :
  generate_srt transcribe audio model language w = (Some p, w') -> p <> "".
Proof.
  intros H.
  destruct (path_exists w audio) eqn:He.
  2:{ unfold generate_srt in H. rewrite He in H. discriminate H. }
  rewrite generate_srt_unfold in H by assumption. cbv zeta in H.
  destruct (fst (transcribe _ _ _ _)) as [segs|]; [|discriminate H].
  match type of H with context [resolve_srt_path ?a ?m ?w1] =>
    destruct (resolve_srt_path_Some a m w1) as (q & Eq & _ & Hne) end.
  rewrite Eq in H. destruct (write_srt segs q _); [|discriminate H].
  now injection H as <- _.
Qed.

(** X17. When the acquisition returns a path,
    [process_youtube_to_srt] is [generate_srt] on that path in the state the
    acquisition left: neither of its two emptiness tests changes a result.
    Started in an absolute directory, it then calls the engine exactly once,
    on that path. *)
Theorem process_after_acquisition yt_dlp transcribe url audio_format model_size language
    w audio_path w1 :
  download_youtube_audio yt_dlp url audio_format w = (Some audio_path, w1) ->
  process_youtube_to_srt yt_dlp transcribe url audio_format model_size language w
  = generate_srt transcribe audio_path model_size language w1
  /\ (starts_with "/" (cwd w) = true ->
      trace (snd (process_youtube_to_srt yt_dlp transcribe url audio_format model_size
                    language w))
      = (trace w1 ++ [EvTranscribe audio_path (model_path model_size)
                        (language_kwarg language)])%list).
Proof.
  intros Hd.
  assert (Heq : process_youtube_to_srt yt_dlp transcribe url audio_format model_size language w
                = generate_srt transcribe audio_path model_size language w1).
  { unfold process_youtube_to_srt. rewrite Hd.
    pose proof (download_result _ _ _ _ _ _ Hd) as [_ Hp].
    assert (audio_path <> "") as Hne by (rewrite Hp; apply normpath_nonempty).
    apply String.eqb_neq in Hne. rewrite Hne.
    destruct (generate_srt transcribe audio_path model_size language w1) as [[p|] w2] eqn:Eg;
      [|reflexivity].
    apply generate_srt_result_nonempty in Eg. apply String.eqb_neq in Eg. now rewrite Eg. }
  split; [exact Heq|]. intros Habs. rewrite Heq.
  apply generate_srt_trace. exact (download_Some_exists _ _ _ _ _ _ Habs Hd).
Qed.

Lemma process_after_acquisition_witness :
  process_youtube_to_srt yt_dlp_ok transcribe_hello ex_url "mp3" "tiny" "auto" ex_home
  = generate_srt transcribe_hello "/home/user/whisper_workspace/youtube_abc12345678.mp3"
      "tiny" "auto" (snd (download_youtube_audio yt_dlp_ok ex_url "mp3" ex_home)).
Proof.
  refine (proj1 (process_after_acquisition yt_dlp_ok transcribe_hello ex_url "mp3" "tiny"
                   "auto" ex_home "/home/user/whisper_workspace/youtube_abc12345678.mp3"
                   (snd (download_youtube_audio yt_dlp_ok ex_url "mp3" ex_home)) _)).
  vm_compute. reflexivity.
Defined.

(** *** The front end *)

(** X18. Called without values, [interactive_mode] runs the
    pipeline on the three lines it reads, stripped, with "auto" and
    "turbo-4bit" for a blank second and third line; with fewer than three
    lines it ends in [EOFError]. *)
Theorem interactive_mode_prompts yt_dlp transcribe audio_format line1 line2 line3 stdin w :
  let url := strip line1 in
  let language := if String.eqb (strip line2) "" then "auto" else strip line2 in
  let model_size := if String.eqb (strip line3) "" then "turbo-4bit" else strip line3 in
  interactive_mode yt_dlp transcribe None None None audio_format
    (line1 :: line2 :: line3 :: stdin) w
  = Some (fst (process_youtube_to_srt yt_dlp transcribe url audio_format model_size language w),
          stdin,
          snd (process_youtube_to_srt yt_dlp transcribe url audio_format model_size language w))
  /\ (forall lines, (length lines < 3)%nat ->
        interactive_mode yt_dlp transcribe None None None audio_format lines w = None).
Proof.
  cbv zeta. split.
  - unfold interactive_mode. cbn [truthy input].
    now destruct (process_youtube_to_srt _ _ _ _ _ _ _) as [r w'].
  - intros lines Hlen. unfold interactive_mode. cbn [truthy].
    destruct lines as [|l1 [|l2 [|l3 lines]]]; cbn [input length] in *; try reflexivity. lia.
Qed.

Lemma interactive_mode_prompts_witness :
  interactive_mode yt_dlp_ok transcribe_hello None None None "mp3" [ex_url; "ja"] ex_home
  = None.
Proof.
  refine (proj2 (interactive_mode_prompts yt_dlp_ok transcribe_hello "mp3" "" "" "" []
                   ex_home) [ex_url; "ja"] _).
  cbn. lia.
Defined.

(** X19. Without a URL (or without arguments) [main] ignores the
    flags: it asks for the three values and always downloads mp3. *)
Theorem main_without_url yt_dlp transcribe argc args line1 line2 line3 stdin w :
  youtube_url args = None \/ argc = 1%nat ->
  main yt_dlp transcribe argc args (line1 :: line2 :: line3 :: stdin) w
  = let language := if String.eqb (strip line2) "" then "auto" else strip line2 in
    let model_size := if String.eqb (strip line3) "" then "turbo-4bit" else strip line3 in
    let r := process_youtube_to_srt yt_dlp transcribe (strip line1) "mp3" model_size
               language w in
    Some (fst r, stdin, snd r).
Proof.
  intros H. cbv zeta.
  assert (main yt_dlp transcribe argc args (line1 :: line2 :: line3 :: stdin) w
          = interactive_mode yt_dlp transcribe None None None "mp3"
              (line1 :: line2 :: line3 :: stdin) w) as ->.
  { unfold main. destruct H as [-> | ->]; [now destruct (Nat.eqb argc 1) | reflexivity]. }
  unfold interactive_mode. cbn [truthy input].
  now destruct (process_youtube_to_srt _ _ _ _ _ _ _) as [r w'].
Qed.

Lemma main_without_url_witness :
  main yt_dlp_ok transcribe_hello 4 ex_args_flags_only [ex_url; ""; ""] ex_home
  = Some (fst (process_youtube_to_srt yt_dlp_ok transcribe_hello ex_url "mp3" "turbo-4bit"
                 "auto" ex_home),
          [],
          snd (process_youtube_to_srt yt_dlp_ok transcribe_hello ex_url "mp3" "turbo-4bit"
                 "auto" ex_home)).
Proof.
  apply (main_without_url yt_dlp_ok transcribe_hello 4 ex_args_flags_only ex_url "" "" []
           ex_home).
  left. reflexivity.
Defined.

(** X20. With a URL and at least one flag, [main] reads no input and
    runs the pipeline once with "auto", "turbo-4bit" and "mp3" for the flags
    that were not given. *)
Theorem main_with_flags yt_dlp transcribe argc args url stdin w :
  argc <> 1%nat ->
  youtube_url args = Some url ->
  truthy (arg_language args) = true \/ truthy (arg_model args) = true
  \/ truthy (arg_audio_format args) = true ->
  main yt_dlp transcribe argc args stdin w
  = let r := process_youtube_to_srt yt_dlp transcribe url
               (or_default (arg_audio_format args) "mp3")
               (or_default (arg_model args) "turbo-4bit")
               (or_default (arg_language args) "auto") w in
    Some (fst r, stdin, snd r).
Proof.
  intros Hargc Hurl Hflag. unfold main. rewrite Hurl.
  apply Nat.eqb_neq in Hargc. rewrite Hargc.
  assert ((negb (String.eqb url "") && negb (truthy (arg_language args))
           && negb (truthy (arg_model args)) && negb (truthy (arg_audio_format args)))%bool
          = false) as ->.
  { destruct Hflag as [-> | [-> | ->]]; cbn [negb]; now rewrite ?andb_false_r. }
  cbv zeta. now destruct (process_youtube_to_srt _ _ _ _ _ _ _).
Qed.

Lemma main_with_flags_witness :
  main yt_dlp_ok transcribe_hello 4 ex_args_language [] ex_home
  = Some (fst (process_youtube_to_srt yt_dlp_ok transcribe_hello ex_url "mp3" "turbo-4bit"
                 "ja" ex_home),
          [],
          snd (process_youtube_to_srt yt_dlp_ok transcribe_hello ex_url "mp3" "turbo-4bit"
                 "ja" ex_home)).
Proof.
  apply (main_with_flags yt_dlp_ok transcribe_hello 4 ex_args_language ex_url [] ex_home).
  - discriminate.
  - reflexivity.
  - left. reflexivity.
Defined.

(** X21. With a URL and no flag, [main] reads one answer: if it starts
    with y or Y after stripping, the remaining two values are asked by
    [interactive_mode]; otherwise the pipeline runs with the defaults. Without
    an answer it ends in [EOFError]. *)
Theorem main_url_only yt_dlp transcribe argc url answer stdin w :
  argc <> 1%nat -> url <> "" ->
  let args := {| youtube_url := Some url; arg_language := None; arg_model := None;
                 arg_audio_format := None |} in
  main yt_dlp transcribe argc args (answer :: stdin) w
  = (if starts_with "y" (lower (strip answer))
     then interactive_mode yt_dlp transcribe (Some url) None None "mp3" stdin w
     else let r := process_youtube_to_srt yt_dlp transcribe url "mp3" "turbo-4bit" "auto" w in
          Some (fst r, stdin, snd r))
  /\ main yt_dlp transcribe argc args [] w = None.
Proof.
  intros Hargc Hurl. cbv zeta. unfold main. cbn [youtube_url arg_language arg_model
    arg_audio_format truthy or_default negb andb input].
  apply Nat.eqb_neq in Hargc. rewrite Hargc.
  apply String.eqb_neq in Hurl. rewrite Hurl. cbn [negb andb].
  split; [|reflexivity].
  destruct (String.eqb_spec (lower (strip answer)) "") as [-> | Hne]; cbn [negb andb].
  - cbn. now destruct (process_youtube_to_srt _ _ _ _ _ _ _).
  - destruct (starts_with "y" (lower (strip answer))); [reflexivity|].
    now destruct (process_youtube_to_srt _ _ _ _ _ _ _).
Qed.

Lemma main_url_only_witness :
  main yt_dlp_ok transcribe_hello 2 ex_args_url_only [" Yes "; "ja"; ""] ex_home
  = interactive_mode yt_dlp_ok transcribe_hello (Some ex_url) None None "mp3" ["ja"; ""]
      ex_home.
Proof.
  refine (proj1 (main_url_only yt_dlp_ok transcribe_hello 2 ex_url " Yes " ["ja"; ""] ex_home
                   _ _)); discriminate.
Defined.

(** ** Further cases *)

(** X13. [generate_srt] depends on the model name only
    through its lower case, and treats every spelling of "auto" alike. *)
Theorem generate_srt_case_insensitive transcribe audio_file model1 model2 language1 language2 w :
  lower model1 = lower model2 ->
  language1 = language2 \/ (lower language1 = "auto" /\ lower language2 = "auto") ->
  generate_srt transcribe audio_file model1 language1 w
  = generate_srt transcribe audio_file model2 language2 w.
Proof.
  intros Hm Hl. unfold generate_srt, model_path, resolve_srt_path. rewrite Hm.
  destruct Hl as [-> | [-> ->]]; reflexivity.
Qed.

Lemma generate_srt_case_insensitive_witness :
  generate_srt transcribe_hello "/home/user/whisper_workspace/youtube_abc12345678.mp3"
    "TINY" "Auto" ex_old_world
  = generate_srt transcribe_hello "/home/user/whisper_workspace/youtube_abc12345678.mp3"
      "tiny" "auto" ex_old_world.
Proof.
  apply generate_srt_case_insensitive.
  - reflexivity.
  - right. split; reflexivity.
Defined.



(** X6. When the name of the workspace is taken by a file,
    [os.makedirs] raises and [download_youtube_audio] returns [None] with the
    state unchanged: no directory change, no yt-dlp. *)
Theorem download_workspace_blocked yt_dlp url format w c :
  fs w !! workspace_key w = Some (File c) ->
  download_youtube_audio yt_dlp url format w = (None, w).
Proof.
  intros Hws. destruct (String.eqb_spec url "") as [-> | Hne]; [reflexivity|].
  rewrite download_unfold by assumption. now rewrite Hws.
Qed.

Lemma download_workspace_blocked_witness :
  download_youtube_audio yt_dlp_ok ex_url "mp3" ex_blocked_world = (None, ex_blocked_world).
Proof.
  apply (download_workspace_blocked yt_dlp_ok ex_url "mp3" ex_blocked_world "notes").
  vm_compute. reflexivity.
Defined.

(** X7. For a URL that is not empty, and a workspace that can
    be made, [download_youtube_audio] leaves the process in the workspace
    whatever it returns; when yt-dlp was not run the only change of the file
    system is the workspace directory, made if it was missing. *)
Theorem download_enters_workspace yt_dlp url format w :
  url <> "" ->
  (forall c, fs w !! workspace_key w <> Some (File c)) ->
  let w' := snd (download_youtube_audio yt_dlp url format w) in
  cwd w' = workspace_key w
  /\ (trace w' = trace w ->
      fs w' = match fs w !! workspace_key w with
              | None => <[workspace_key w := Dir]> (fs w)
              | Some _ => fs w
              end).
Proof.
  intros Hne Hws. cbv zeta. rewrite download_unfold by assumption.
  assert (Hnil : forall (l : list event) e, (l ++ [e])%list <> l).
  { intros l e H. apply (f_equal (@List.length _)) in H. rewrite length_app in H.
    cbn in H. lia. }
  destruct (fs w !! workspace_key w) as [[|c]|] eqn:E;
    [ | exfalso; exact (Hws c eq_refl) | ];
    (destruct (path_exists (entered w) (expected_file url format));
     [ cbn [snd entered cwd fs trace]; rewrite E; now split
     | destruct (fst (yt_dlp _ _));
       [ destruct (path_exists (downloaded yt_dlp url format w) (expected_file url format)) | ];
       cbn [snd downloaded cwd fs trace]; (split; [reflexivity|]);
       intros H; exfalso; exact (Hnil _ _ H) ]).
Qed.

Lemma download_enters_workspace_witness :
  cwd (snd (download_youtube_audio yt_dlp_fail ex_url "mp3" ex_home))
  = "/home/user/whisper_workspace".
Proof.
  refine (proj1 (download_enters_workspace yt_dlp_fail ex_url "mp3" ex_home _ _)).
  - discriminate.
  - intros c. vm_compute. discriminate.
Defined.

(** X22. [interactive_mode] reads exactly one line for each of
    URL, language and model that it was not given (an empty string counts as
    not given), and ends in [EOFError] exactly when fewer lines are left. *)
Theorem interactive_mode_reads yt_dlp transcribe url language model_size audio_format stdin w :
  let n := (asked url + asked language + asked model_size)%nat in
  match interactive_mode yt_dlp transcribe url language model_size audio_format stdin w with
  | Some (_, rest, _) => (n <= length stdin)%nat /\ rest = skipn n stdin
  | None => (length stdin < n)%nat
  end.
Proof.
  cbv zeta. unfold interactive_mode, asked.
  destruct (truthy url), (truthy language), (truthy model_size);
    destruct stdin as [|l1 [|l2 [|l3 stdin]]]; cbn [input length skipn Nat.add];
    try destruct (process_youtube_to_srt _ _ _ _ _ _ _) as [r w'];
    first [ lia | split; [lia | reflexivity] ].
Qed.

(** X23. An empty URL on the command line fails at once, whatever the
    flags: no input is read, nothing is run and the state is unchanged. *)
Theorem main_empty_url yt_dlp transcribe argc args stdin w :
  argc <> 1%nat ->
  youtube_url args = Some "" ->
  main yt_dlp transcribe argc args stdin w = Some (None, stdin, w).
Proof.
  intros Hargc Hurl. unfold main. rewrite Hurl.
  apply Nat.eqb_neq in Hargc. rewrite Hargc. reflexivity.
Qed.

Lemma main_empty_url_witness :
  main yt_dlp_ok transcribe_hello 4 ex_args_empty_url ["y"] ex_home
  = Some (None, ["y"], ex_home).
Proof.
  apply main_empty_url; [discriminate | reflexivity].
Defined.

(** X24. A blank answer to the URL prompt makes
    [interactive_mode] fail after its remaining prompts, with the state
    unchanged. *)
Theorem interactive_mode_blank_url yt_dlp transcribe language model_size audio_format
    line stdin w r rest w' :
  strip line = "" ->
  interactive_mode yt_dlp transcribe None language model_size audio_format (line :: stdin) w
  = Some (r, rest, w') ->
  r = None /\ w' = w.
Proof.
  intros Hs. unfold interactive_mode. cbn [truthy input]. rewrite Hs.
  destruct (truthy language); [|destruct (input stdin) as [[l2 s2]|]; [|discriminate]];
    (destruct (truthy model_size);
     [|match goal with |- context [input ?s] => destruct (input s) as [[l3 s3]|] end;
       [|discriminate]]);
    cbn; intros [= <- _ <-]; now split.
Qed.

Lemma interactive_mode_blank_url_witness :
  interactive_mode yt_dlp_ok transcribe_hello None None None "mp3" ["  "; "ja"; "tiny"] ex_home
  = Some (None, [], ex_home).
Proof.
  destruct (interactive_mode yt_dlp_ok transcribe_hello None None None "mp3"
              ["  "; "ja"; "tiny"] ex_home) as [[[r rest] w']|] eqn:E.
  - destruct (interactive_mode_blank_url yt_dlp_ok transcribe_hello None None "mp3" "  "
                ["ja"; "tiny"] ex_home r rest w' eq_refl E) as [-> ->].
    vm_compute in E. injection E as <-. reflexivity.
  - vm_compute in E. discriminate E.
Defined.
